(** * cvscan: the cluster scanner of [internal/scan/scan.go]

    A shallow embedding of the [scan] package: the catalog of resource
    clients built by [getAllResources], the enumeration loop and the item
    filters of [ListAll], the capability probe of [getCapabilities], and
    the few functions of the Go standard library and of the Kubernetes
    client libraries that the package calls. *)

From Stdlib Require Import Ascii String List Bool Arith Lia.
From stdpp Require Import base option list gmap sets strings.
Import ListNotations.

Set Default Proof Using "Type".
#[local] Set Warnings "-clear-no-such-hyp".

(** ** The Go [strings] package, as far as the scanner uses it

    Go strings are byte sequences; [string] is a sequence of [ascii]
    bytes, so the two agree. *)
Module strings.

(** [strings.HasPrefix]. *)
Fixpoint HasPrefix (s prefix : string) {struct prefix} : bool :=
  match prefix with
  | EmptyString => true
  | String p prefix' =>
      match s with
      | EmptyString => false
      | String c s' => Ascii.eqb c p && HasPrefix s' prefix'
      end
  end.

(** The bytes of [s] from offset [n] on: the Go slice [s[n:]]. *)
Fixpoint drop (n : nat) (s : string) : string :=
  match n with
  | 0 => s
  | S n' => match s with
            | EmptyString => EmptyString
            | String _ s' => drop n' s'
            end
  end.

(** The first [n] bytes of [s]: the Go slice [s[:n]]. *)
Fixpoint take (n : nat) (s : string) : string :=
  match n with
  | 0 => EmptyString
  | S n' => match s with
            | EmptyString => EmptyString
            | String c s' => String c (take n' s')
            end
  end.

(** [strings.HasSuffix]:
    [len(s) >= len(suffix) && s[len(s)-len(suffix):] == suffix]. *)
Definition HasSuffix (s suffix : string) : bool :=
  (String.length suffix <=? String.length s) &&
  String.eqb (drop (String.length s - String.length suffix) s) suffix.

(** [strings.ContainsRune] for a rune below 0x80, which is one byte. *)
Fixpoint ContainsRune (s : string) (r : ascii) : bool :=
  match s with
  | EmptyString => false
  | String c s' => Ascii.eqb c r || ContainsRune s' r
  end.

(** [strings.Index]: the offset of the first occurrence of [sub] in [s],
    [None] where Go returns -1. *)
Fixpoint Index (s sub : string) : option nat :=
  if HasPrefix s sub then Some 0
  else match s with
       | EmptyString => None
       | String _ s' => S <$> Index s' sub
       end.

(** [strings.Count(s, "/")]-style counting of one byte. *)
Fixpoint CountByte (s : string) (b : ascii) : nat :=
  match s with
  | EmptyString => 0
  | String c s' => (if Ascii.eqb c b then 1 else 0) + CountByte s' b
  end.

(** The offset of the first byte [b], the length of [s] when absent. *)
Fixpoint IndexByte (s : string) (b : ascii) : nat :=
  match s with
  | EmptyString => 0
  | String c s' => if Ascii.eqb c b then 0 else S (IndexByte s' b)
  end.

(** Lower-casing of one byte: the letters A to Z move to a to z. *)
Definition lowerByte (c : ascii) : ascii :=
  let n := nat_of_ascii c in
  if (65 <=? n) && (n <=? 90) then ascii_of_nat (n + 32) else c.

(** [strings.ToLower] on ASCII text, which is what a Kubernetes kind is
    (bytes from 0x80 on are left as they are). *)
Fixpoint ToLower (s : string) : string :=
  match s with
  | EmptyString => EmptyString
  | String c s' => String (lowerByte c) (ToLower s')
  end.

End strings.

(** ** The Go [regexp] package: a backtracking matcher

    Go's matcher returns the leftmost match and, among the matches that
    start there, the one a backtracking search finds first.  The fragment
    below has the operators the scanner's pattern is made of. *)
Module regexp.

Inductive Regexp : Type :=
| Lit (c : ascii)                 (* one literal byte *)
| AnyCharNotNL                    (* [.] *)
| EndText                         (* [\z] *)
| Concat (r1 r2 : Regexp)
| Alternate (r1 r2 : Regexp)      (* [r1|r2], [r1] preferred *)
| LazyStar (r : Regexp)           (* [r*?], fewest repetitions preferred *)
| Capture (i : nat) (r : Regexp). (* the [i]-th parenthesised group *)

(** A literal string is the concatenation of its bytes. *)
Fixpoint Str (s : string) (rest : Regexp) : Regexp :=
  match s with
  | EmptyString => rest
  | String c s' => Concat (Lit c) (Str s' rest)
  end.

Definition newline : ascii := ascii_of_nat 10.

(** The state of a match in progress: the input not yet consumed and the
    text of the groups closed so far. *)
Abbreviation Caps := (gmap nat string).
Definition Cont : Type := string → Caps → option (string * Caps).

(** [run r inp caps k]: match [r] at the head of [inp], then go on with
    [k]; [None] makes the caller try its next alternative. *)
Fixpoint run (r : Regexp) (inp : string) (caps : Caps) (k : Cont)
  : option (string * Caps) :=
  match r with
  | Lit c =>
      match inp with
      | String c' rest => if Ascii.eqb c' c then k rest caps else None
      | EmptyString => None
      end
  | AnyCharNotNL =>
      match inp with
      | String c' rest => if Ascii.eqb c' newline then None else k rest caps
      | EmptyString => None
      end
  | EndText =>
      match inp with
      | EmptyString => k inp caps
      | String _ _ => None
      end
  | Concat r1 r2 => run r1 inp caps (λ inp' caps', run r2 inp' caps' k)
  | Alternate r1 r2 =>
      match run r1 inp caps k with
      | Some m => Some m
      | None => run r2 inp caps k
      end
  | LazyStar r1 =>
      (fix star (fuel : nat) (inp : string) (caps : Caps) {struct fuel} :=
         match k inp caps with
         | Some m => Some m
         | None =>
             match fuel with
             | 0 => None
             | S fuel' =>
                 run r1 inp caps
                   (λ inp' caps',
                      if String.length inp' <? String.length inp
                      then star fuel' inp' caps' else None)
             end
         end) (String.length inp) inp caps
  | Capture i r1 =>
      run r1 inp caps
        (λ inp' caps',
           k inp' (<[i := strings.take (String.length inp - String.length inp') inp]> caps'))
  end.

(** The number of groups of a pattern. *)
Fixpoint NumSubexp (r : Regexp) : nat :=
  match r with
  | Lit _ | AnyCharNotNL | EndText => 0
  | Concat r1 r2 | Alternate r1 r2 => NumSubexp r1 + NumSubexp r2
  | LazyStar r1 => NumSubexp r1
  | Capture _ r1 => S (NumSubexp r1)
  end.

(** A match anchored at the head of [s]: the matched text followed by the
    text of each group (empty for a group that did not take part). *)
Definition matchAt (re : Regexp) (s : string) : option (list string) :=
  match run re s ∅ (λ inp caps, Some (inp, caps)) with
  | Some (rest, caps) =>
      Some (strings.take (String.length s - String.length rest) s
            :: map (λ i, default EmptyString (caps !! i)) (seq 1 (NumSubexp re)))
  | None => None
  end.

(** [Regexp.FindStringSubmatch]: the leftmost match; [None] is the nil
    slice Go returns when there is none. *)
Fixpoint FindStringSubmatch (re : Regexp) (s : string) : option (list string) :=
  match matchAt re s with
  | Some m => Some m
  | None =>
      match s with
      | EmptyString => None
      | String _ s' => FindStringSubmatch re s'
      end
  end.

End regexp.

(** The pattern [release=(.*?)(,|\z)] of [ListAll]. *)
Definition releaseRe : regexp.Regexp :=
  regexp.Str "release="
    (regexp.Concat
       (regexp.Capture 1 (regexp.LazyStar regexp.AnyCharNotNL))
       (regexp.Capture 2 (regexp.Alternate (regexp.Lit ",") regexp.EndText))).

(** Lines 142-147 of [ListAll]: the release name parsed from the label
    selector; [release] keeps its zero value unless [len(m) > 1]. *)
Definition releaseName (labelSelector : string) : string :=
  match regexp.FindStringSubmatch releaseRe labelSelector with
  | Some (_ :: m1 :: _) => m1
  | _ => EmptyString
  end.

(** ** Errors

    A Go [error] is an API status error, which carries the reason the
    server gave, or any other error.  [fmt.Errorf] builds an error from
    the formatted text. *)
Module errors.

Inductive StatusReason : Type :=
| StatusReasonUnknown
| StatusReasonUnauthorized
| StatusReasonForbidden
| StatusReasonNotFound
| StatusReasonAlreadyExists
| StatusReasonConflict
| StatusReasonGone
| StatusReasonInvalid
| StatusReasonServerTimeout
| StatusReasonTimeout
| StatusReasonTooManyRequests
| StatusReasonBadRequest
| StatusReasonMethodNotAllowed
| StatusReasonNotAcceptable
| StatusReasonUnsupportedMediaType
| StatusReasonInternalError
| StatusReasonExpired
| StatusReasonServiceUnavailable.

#[global] Instance StatusReason_eq_dec : EqDecision StatusReason.
Proof. solve_decision. Defined.

Inductive error : Type :=
| StatusError (reason : StatusReason) (message : string)
| errorString (message : string).

(** The [Error()] method. *)
Definition Error (e : error) : string :=
  match e with
  | StatusError _ m => m
  | errorString m => m
  end.

(** [fmt.Errorf(prefix + "%v", err)]. *)
Definition Errorf (prefix : string) (err : error) : error :=
  errorString (prefix +:+ Error err).

(** [ReasonForError]: the reason of a status error, unknown otherwise. *)
Definition ReasonForError (err : error) : StatusReason :=
  match err with
  | StatusError r _ => r
  | errorString _ => StatusReasonUnknown
  end.

Definition IsNotFound (err : error) : bool :=
  bool_decide (ReasonForError err = StatusReasonNotFound).
Definition IsMethodNotSupported (err : error) : bool :=
  bool_decide (ReasonForError err = StatusReasonMethodNotAllowed).
Definition IsBadRequest (err : error) : bool :=
  bool_decide (ReasonForError err = StatusReasonBadRequest).
Definition IsServiceUnavailable (err : error) : bool :=
  bool_decide (ReasonForError err = StatusReasonServiceUnavailable).

End errors.
Export errors.

(** A Go result pair [(value, err)] with [err] either nil or not. *)
Inductive Result (A : Type) : Type :=
| Ok (a : A)
| Err (e : error).
Arguments Ok {A} a.
Arguments Err {A} e.

(** ** String sets

    The package [pkg/stringset] of this repository is not among the
    sources read here; its three functions are modelled on finite sets of
    strings. *)
Module stringset.

(** Modelled from the spec: [stringset.New], missing from the sources,
    builds what the spec calls a "set of parent kinds" and a "permanent
    skip set seeded with" the given names: the set of its arguments. *)
Definition New (names : list string) : gset string := list_to_set names.

(** Modelled from the spec: [Has], missing from the sources, is the test
    behind "names a kind in its mapped set" and "already claimed":
    membership. *)
Definition Has (s : gset string) (name : string) : bool := bool_decide (name ∈ s).

(** Modelled from the spec: [Add], missing from the sources, is how a name
    is "claimed" in the skip set: insertion. *)
Definition Add (s : gset string) (name : string) : gset string := {[name]} ∪ s.

End stringset.

(** ** The Kubernetes types the scanner handles *)
Module schema.

Record GroupVersion : Type := { Group : string; Version : string }.

(** [schema.ParseGroupVersion]: the empty string and "/" are the empty
    group/version, "v1" is a version of the core group, "apps/v1" a group
    and a version, and more than one slash is an error. *)
Definition ParseGroupVersion (gv : string) : Result GroupVersion :=
  if (String.length gv =? 0) || String.eqb gv "/"
  then Ok {| Group := EmptyString; Version := EmptyString |}
  else match strings.CountByte gv "/" with
       | 0 => Ok {| Group := EmptyString; Version := gv |}
       | 1 => let i := strings.IndexByte gv "/" in
              Ok {| Group := strings.take i gv; Version := strings.drop (S i) gv |}
       | _ => Err (errorString ("unexpected GroupVersion string: " +:+ gv))
       end.

End schema.

Module metav1.

Record APIResource : Type := { Name : string; Namespaced : bool }.

Record APIResourceList : Type :=
  { GroupVersion : string; APIResources : list APIResource }.

Record OwnerReference : Type := { Kind : string; OwnerName : string }.

Record ListOptions : Type := { LabelSelector : string }.

Record GroupVersionForDiscovery : Type := { GroupVersionString : string }.
Record APIGroup : Type := { Versions : list GroupVersionForDiscovery }.
Record APIGroupList : Type := { Groups : list APIGroup }.

(** [metav1.ExtractGroupVersions]. *)
Definition ExtractGroupVersions (l : APIGroupList) : list string :=
  flat_map (λ g, map GroupVersionString (Versions g)) (Groups l).

End metav1.

Module unstructured.

(** An object as the list call returns it.  The accessors of
    [unstructured.Unstructured] read these fields out of the object's
    content; [Object] stands for the whole content, which is what gets
    serialized. *)
Record Unstructured : Type :=
  { Kind : string;
    Namespace : string;
    Name : string;
    Labels : gmap string string;
    Annotations : gmap string string;
    OwnerReferences : list metav1.OwnerReference;
    Object : string }.

End unstructured.

Module rest.

(** The fields of [rest.Config] that [getAllResources] sets, next to the
    connection data it copies ([Host] stands for all of it). *)
Record Config : Type :=
  { Host : string;
    APIPath : string;
    GroupVersion : option schema.GroupVersion;
    NegotiatedSerializer : bool }.

(** A client bound to one group/version; [APIVersion] is the method of
    that name. *)
Record RESTClient : Type :=
  { APIVersion : schema.GroupVersion; versionedAPIPath : string }.

(** The request [client.Get().Namespace(ns).Resource(name)], with the
    [labelSelector] parameter when it was set. *)
Record Request : Type :=
  { client : RESTClient;
    namespace : string;
    resource : string;
    labelSelector : option string }.

End rest.

Module discovery.

(** What [ServerPreferredResources] hands back as its error: the
    failure of some groups only, or any other failure. *)
Inductive Error : Type :=
| ErrGroupDiscoveryFailed (Groups : list schema.GroupVersion)
| otherError (e : error).

End discovery.

Module chartutil.

Record Capabilities : Type :=
  { KubeVersion : option string;
    APIVersions : option (gset string);
    TillerVersion : option string }.

(** [chartutil.NewVersionSet]. *)
Definition NewVersionSet (versions : list string) : gset string :=
  list_to_set versions.

End chartutil.

(** ** The world outside the process

    Everything the scanner asks of the cluster, of the file system and of
    the [helm] executable, as the answers it gets. *)
Record World : Type :=
  { (** [kubernetes.NewForConfig] *)
    NewForConfig : rest.Config → option error;
    (** [rest.RESTClientFor] *)
    RESTClientFor : rest.Config → Result rest.RESTClient;
    (** [clientset.Discovery().ServerPreferredResources()] *)
    ServerPreferredResources : list metav1.APIResourceList * option discovery.Error;
    (** [req.Do()]: the error of the request, or the items the server sent *)
    Do : rest.Request → Result (list unstructured.Unstructured);
    (** [yaml.Marshal(item.Object)] *)
    yaml_Marshal : unstructured.Unstructured → Result string;
    (** [os.MkdirAll(outDir, os.ModePerm)] *)
    MkdirAll : string → option error;
    (** [ioutil.WriteFile(path, data, os.ModePerm)]: does the write fail? *)
    WriteFile : string * string → string → option error;
    (** [clientset.ServerVersion()] *)
    ServerVersion : Result string;
    (** [clientset.ServerGroups()] *)
    ServerGroups : Result metav1.APIGroupList;
    (** [exec.Command("helm", args...).Run()]: the error, if any, and what
        the command wrote to its standard output *)
    helm : list string → option error * string;
    (** [json.MarshalIndent] of the capability document: the capabilities,
        the namespace and the release name *)
    json_MarshalIndent : chartutil.Capabilities * string * string → Result string }.

(** ** Writing files

    The scanner's only lasting effect is the files it writes.  A [Disk] is
    the sequence of writes that succeeded, oldest first, each with the path
    [filepath.Join(dir, name)] kept as its two elements.  A computation
    takes the disk and returns it, grown or not, with a result or an
    error: what was written before an error stays written. *)
Definition Path : Type := string * string.
Definition Disk : Type := list (Path * string).

Module filepath.
(** [filepath.Join(dir, name)], kept as the pair of its two arguments.  Go
    joins them with a separator and cleans the result; the pair leaves
    that undone, and no property below says where a joined path lies. *)
Definition Join (dir name : string) : Path := (dir, name).
End filepath.

Definition M (A : Type) : Type := Disk → Disk * Result A.

Definition ret {A : Type} (a : A) : M A := λ d, (d, Ok a).

(** [return err] out of the function. *)
Definition fail {A : Type} (e : error) : M A := λ d, (d, Err e).

Definition bind {A B : Type} (m : M A) (f : A → M B) : M B :=
  λ d, match m d with
       | (d', Ok a) => f a d'
       | (d', Err e) => (d', Err e)
       end.

(** Sequencing of two steps, the first returning nothing of interest. *)
Definition andThen {A B : Type} (m : M A) (k : M B) : M B := bind m (λ _, k).
Infix ">>" := andThen (at level 90, right associativity).

(** A [for ... range] loop whose body may return from the function;
    [continue] is the body ending with [ret tt]. *)
Fixpoint forEach {A : Type} (l : list A) (body : A → M unit) : M unit :=
  match l with
  | [] => ret tt
  | x :: l' => body x >> forEach l' body
  end.

(** ** The scanner *)

Record Scanner : Type :=
  { config : rest.Config;
    resourceClients : gmap string rest.RESTClient;
    clusterWideOnly : bool }.

(** The kinds [getAllResources] never lists. *)
Definition skipSeed : gset string :=
  stringset.New
    [ "componentstatuses";
      "controllerrevisions";
      "events";
      "endpoints";
      "packagemanifests" ].

(** The table [ownedKindsToSkip] of [ListAll]. *)
Definition ownedKindsToSkip : gmap string (gset string) :=
  <["Pod" := stringset.New
               [ "ReplicationController";
                 "ReplicaSet";
                 "StatefulSet";
                 "DaemonSet";
                 "Job" ]]>
  (<["ReplicaSet" := stringset.New ["Deployment"]]>
  (<["Job" := stringset.New ["CronJob"]]> ∅)).

(** Go's [m[key]] on a map of strings: the empty string for a missing key. *)
Definition index (m : gmap string string) (key : string) : string :=
  default EmptyString (m !! key).

(** The type assertion on the discovery error: the asserted pointer, nil
    when the assertion fails, and [ok]. *)
Definition asErrGroupDiscoveryFailed (err : option discovery.Error)
  : option (list schema.GroupVersion) * bool :=
  match err with
  | Some (discovery.ErrGroupDiscoveryFailed groups) => (Some groups, true)
  | _ => (None, false)
  end.

Definition isNil {A : Type} (p : option A) : bool :=
  match p with
  | Some _ => false
  | None => true
  end.

Section Scan.

Variable W : World.

(** *** [getAllResources] *)

(** The body of the loop over [v.APIResources] (lines 211-226), on the
    skip set and the catalog built so far. *)
Definition getAllResources_resource (clusterWideOnly : bool) (c : rest.RESTClient)
    (st : gset string * gmap string rest.RESTClient) (resource : metav1.APIResource)
  : gset string * gmap string rest.RESTClient :=
  let '(skip, resources) := st in
  let name := metav1.Name resource in
  if strings.ContainsRune name "/" || stringset.Has skip name then st
  else if clusterWideOnly && metav1.Namespaced resource then st
  else (stringset.Add skip name, <[name := c]> resources).

(** The configuration of the client of one group/version (lines
    197-203). *)
Definition groupVersionConfig (cfg : rest.Config) (gv : schema.GroupVersion)
  : rest.Config :=
  {| rest.Host := rest.Host cfg;
     rest.APIPath :=
       if String.length (schema.Group gv) =? 0 then "/api" else "/apis";
     rest.GroupVersion := Some gv;
     rest.NegotiatedSerializer := true |}.

(** The body of the loop over [vs] (lines 190-227). *)
Definition getAllResources_groupVersion (s : Scanner)
    (st : gset string * gmap string rest.RESTClient) (v : metav1.APIResourceList)
  : gset string * gmap string rest.RESTClient :=
  match schema.ParseGroupVersion (metav1.GroupVersion v) with
  | Err _ => st
  | Ok gv =>
      match RESTClientFor W (groupVersionConfig (config s) gv) with
      | Err _ => st
      | Ok c =>
          fold_left (getAllResources_resource (clusterWideOnly s) c)
            (metav1.APIResources v) st
      end
  end.

(** The catalog the two loops build from the discovered lists. *)
Definition buildCatalog (s : Scanner) (vs : list metav1.APIResourceList)
  : gmap string rest.RESTClient :=
  snd (fold_left (getAllResources_groupVersion s) vs (skipSeed, ∅)).

(** [getAllResources].  The [err] that the [else if] of line 174 tests is
    the variable the type assertion of line 170 declared, and that one is
    nil whenever the assertion failed. *)
Definition getAllResources (s : Scanner) : Result (gmap string rest.RESTClient) :=
  let '(vs, err) := ServerPreferredResources W in
  let '(err', ok) := asErrGroupDiscoveryFailed err in
  if ok && negb (isNil err') then Ok (buildCatalog s vs)
  else if negb (isNil err') then
    Err (errorString "fetching server API resources: unable to retrieve the complete list of server APIs")
  else Ok (buildCatalog s vs).

(** [New]. *)
Definition New (cfg : rest.Config) (clusterWideOnly : bool) : Result Scanner :=
  let s := {| config := cfg; resourceClients := ∅; clusterWideOnly := clusterWideOnly |} in
  match NewForConfig W cfg with
  | Some err => Err (Errorf "creating kube client: " err)
  | None =>
      match getAllResources s with
      | Err err => Err (Errorf "getting resource clients: " err)
      | Ok clients =>
          Ok {| config := cfg; resourceClients := clients; clusterWideOnly := clusterWideOnly |}
      end
  end.

(** *** [getCapabilities] *)

Definition emptyCapabilities : chartutil.Capabilities :=
  {| chartutil.KubeVersion := None;
     chartutil.APIVersions := None;
     chartutil.TillerVersion := None |}.

Definition versionArgs : list string :=
  ["version"; "-s"; "--template"; "{{.Server.SemVer}}"].
Definition versionArgsTLS : list string :=
  ["version"; "--tls"; "-s"; "--template"; "{{.Server.SemVer}}"].

(** Lines 256-283: the probe of [helm], given the capabilities gathered
    from the server.  Both version commands write to the one buffer
    [out]. *)
Definition probeTiller (c : chartutil.Capabilities)
  : chartutil.Capabilities * option error :=
  let live :=
    match fst (helm W ["ls"]) with
    | None => true
    | Some _ => isNil (fst (helm W ["ls"; "--tls"]))
    end in
  if negb live then (c, None)
  else
    let '(err, out) := helm W versionArgs in
    let '(err, out) :=
      match err with
      | None => (None, out)
      | Some _ =>
          let '(err2, out2) := helm W versionArgsTLS in (err2, out +:+ out2)
      end in
    match err with
    | Some e => (c, Some (Errorf "tiller version: " e))
    | None =>
        ({| chartutil.KubeVersion := chartutil.KubeVersion c;
            chartutil.APIVersions := chartutil.APIVersions c;
            chartutil.TillerVersion := Some out |}, None)
    end.

(** [getCapabilities].  [groups.Size()] is the size of the encoded group
    list, which is zero exactly when the list has no group. *)
Definition getCapabilities : chartutil.Capabilities * option error :=
  let c := emptyCapabilities in
  match ServerVersion W with
  | Err err => (c, Some (Errorf "server version: " err))
  | Ok sv =>
      let c := {| chartutil.KubeVersion := Some sv;
                  chartutil.APIVersions := None;
                  chartutil.TillerVersion := None |} in
      match ServerGroups W with
      | Err err => (c, Some (Errorf "server groups: " err))
      | Ok groups =>
          if length (metav1.Groups groups) =? 0 then (c, None)
          else
            let versions := metav1.ExtractGroupVersions groups in
            let vs := chartutil.NewVersionSet versions in
            probeTiller {| chartutil.KubeVersion := Some sv;
                           chartutil.APIVersions := Some vs;
                           chartutil.TillerVersion := None |}
      end
  end.

(** *** [ListAll] *)

(** [ioutil.WriteFile(path, data, os.ModePerm)] followed by the
    [return err] of a failed write. *)
Definition writeFile (p : Path) (data : string) : M unit :=
  λ d, match WriteFile W p data with
       | Some err => (d, Err err)
       | None => (d ++ [(p, data)], Ok tt)
       end.

(** Line 104: the name of the file of an item. *)
Definition itemKey (item : unstructured.Unstructured) : string :=
  "scanned-" +:+ strings.ToLower (unstructured.Kind item) +:+ "-" +:+
  unstructured.Namespace item +:+ "-" +:+ unstructured.Name item +:+ ".yaml".

(** Lines 113-117: does the loop over the owner references reach
    [continue outer]? *)
Fixpoint ownedBy (skip : gset string) (owners : list metav1.OwnerReference) : bool :=
  match owners with
  | [] => false
  | o :: owners' =>
      if stringset.Has skip (metav1.Kind o) then true else ownedBy skip owners'
  end.

(** Lines 104-133: the body of the loop over [l.Items]. *)
Definition ListAll_item (outDir : string) (item : unstructured.Unstructured) : M unit :=
  let key := itemKey item in
  match yaml_Marshal W item with
  | Err err => fail (Errorf ("creating YAML for " +:+ key +:+ ": ") err)
  | Ok y =>
      let kind := unstructured.Kind item in
      if match ownedKindsToSkip !! kind with
         | Some skip => ownedBy skip (unstructured.OwnerReferences item)
         | None => false
         end
      then ret tt
      else if String.eqb kind "Secret" &&
              (0 <? String.length
                      (index (unstructured.Annotations item)
                         "kubernetes.io/service-account.uid"))
      then ret tt
      else if String.eqb kind "Service" &&
              (0 <? String.length
                      (index (unstructured.Labels item)
                         "gluster.kubernetes.io/provisioned-for-pvc"))
      then ret tt
      else writeFile (filepath.Join outDir key) y
  end.

(** [Into(l)] on the result of a request: a failed request returns its
    error and leaves [l] as it was allocated. *)
Definition Into (r : Result (list unstructured.Unstructured))
    (l : list unstructured.Unstructured)
  : list unstructured.Unstructured * option error :=
  match r with
  | Err e => (l, Some e)
  | Ok items => (items, None)
  end.

(** Line 94: the condition under which a list error is returned. *)
Definition listErrorIsFatal (err : error) (client : rest.RESTClient) : bool :=
  negb (IsNotFound err) && negb (IsMethodNotSupported err) &&
  negb ((IsBadRequest err || IsServiceUnavailable err) &&
        strings.HasSuffix (schema.Group (rest.APIVersion client)) ".clusterapi.io").

(** Lines 83-88: the list request for one entry of the catalog. *)
Definition listRequest (namespace : string) (opts : metav1.ListOptions)
    (name : string) (client : rest.RESTClient) : rest.Request :=
  {| rest.client := client;
     rest.namespace := namespace;
     rest.resource := name;
     rest.labelSelector :=
       if 0 <? String.length (metav1.LabelSelector opts)
       then Some (metav1.LabelSelector opts) else None |}.

(** Lines 81-134: the body of the loop over [s.resourceClients]. *)
Definition ListAll_resource (namespace : string) (opts : metav1.ListOptions)
    (outDir : string) (entry : string * rest.RESTClient) : M unit :=
  let '(name, client) := entry in
  let req := listRequest namespace opts name client in
  let '(l, err) := Into (Do W req) [] in
  let items :=
    if length l =? 0 then ret tt else forEach l (ListAll_item outDir) in
  match err with
  | Some e =>
      if listErrorIsFatal e client
      then fail (Errorf ("listing " +:+ name +:+ ": ") e)
      else items
  | None => items
  end.

(** Lines 137-163: the capability document. *)
Definition ListAll_capabilities (namespace : string) (opts : metav1.ListOptions)
    (outDir : string) : M unit :=
  let '(c, err) := getCapabilities in
  match err with
  | Some e => fail (Errorf "reading cluster capabilities: " e)
  | None =>
      let release := releaseName (metav1.LabelSelector opts) in
      match json_MarshalIndent W (c, namespace, release) with
      | Err e => fail (Errorf "marshaling capabilities to JSON: " e)
      | Ok b => writeFile (filepath.Join outDir "caps.json") b
      end
  end.

(** [ListAll], on the order [order] in which the [range] of line 80
    visits the entries of [s.resourceClients]. *)
Definition ListAll (order : list (string * rest.RESTClient)) (namespace : string)
    (opts : metav1.ListOptions) (outDir : string) : M unit :=
  match MkdirAll W outDir with
  | Some err => fail (Errorf "creating output directory: " err)
  | None =>
      forEach order (ListAll_resource namespace opts outDir) >>
      ListAll_capabilities namespace opts outDir
  end.

End Scan.

(** Go leaves the order of a [range] over a map open: any enumeration of
    the entries of the catalog is a possible order. *)
Definition rangeOver (s : Scanner) (order : list (string * rest.RESTClient)) : Prop :=
  order ≡ₚ map_to_list (resourceClients s).

(** ** Reference descriptions

    What the loops compute, said directly; the properties below relate
    them to the code. *)

(** The value that follows [release=]: the bytes up to the first comma or
    to the end of the text, with the separator found and the text after
    it; no value at all when a line break comes first, which [.] does not
    match. *)
Fixpoint scanValue (body : string) : option (string * string * string) :=
  match body with
  | EmptyString => Some (EmptyString, EmptyString, EmptyString)
  | String c rest =>
      if Ascii.eqb c "," then Some (EmptyString, String c EmptyString, rest)
      else if Ascii.eqb c regexp.newline then None
      else match scanValue rest with
           | Some (v, sep, after) => Some (String c v, sep, after)
           | None => None
           end
  end.

(** What is left of the pattern once its first group has consumed the
    part of [body] before [inp']: the group is closed and the separator
    group matched. *)
Definition afterValue (body : string) : regexp.Cont :=
  λ inp' caps',
    regexp.run (regexp.Capture 2 (regexp.Alternate (regexp.Lit ",") regexp.EndText)) inp'
      (<[1 := strings.take (String.length body - String.length inp') body]> caps')
      (λ inp caps, Some (inp, caps)).

(** The three filters of [ListAll] on an item: owned by a controller
    that regenerates it, a token Secret of a service account, a Service
    provisioned for a volume claim. *)
Definition ownedByController (item : unstructured.Unstructured) : bool :=
  match ownedKindsToSkip !! unstructured.Kind item with
  | Some skip => ownedBy skip (unstructured.OwnerReferences item)
  | None => false
  end.

Definition tokenSecret (item : unstructured.Unstructured) : bool :=
  String.eqb (unstructured.Kind item) "Secret" &&
  negb (String.eqb (index (unstructured.Annotations item)
                      "kubernetes.io/service-account.uid") EmptyString).

Definition provisionedService (item : unstructured.Unstructured) : bool :=
  String.eqb (unstructured.Kind item) "Service" &&
  negb (String.eqb (index (unstructured.Labels item)
                      "gluster.kubernetes.io/provisioned-for-pvc") EmptyString).

Definition suppressed (item : unstructured.Unstructured) : bool :=
  ownedByController item || tokenSecret item || provisionedService item.

(** The list errors the enumeration goes past: not found, method not
    supported, and bad request or service unavailable from a group whose
    name ends in [.clusterapi.io]. *)
Definition tolerated (err : error) (client : rest.RESTClient) : bool :=
  IsNotFound err || IsMethodNotSupported err ||
  ((IsBadRequest err || IsServiceUnavailable err) &&
   strings.HasSuffix (schema.Group (rest.APIVersion client)) ".clusterapi.io").

(** The discoveries in the order the two loops of [getAllResources] meet
    them: the resources of every group/version whose name parses and for
    which a client is built, each with that client. *)
Definition discoveries (W : World) (s : Scanner) (vs : list metav1.APIResourceList)
  : list (rest.RESTClient * metav1.APIResource) :=
  flat_map
    (λ v, match schema.ParseGroupVersion (metav1.GroupVersion v) with
          | Err _ => []
          | Ok gv =>
              match RESTClientFor W (groupVersionConfig (config s) gv) with
              | Err _ => []
              | Ok c => map (λ r, (c, r)) (metav1.APIResources v)
              end
          end) vs.

(** A discovery the filters of lines 214-221 let through, leaving aside
    whether its name was claimed before. *)
Definition admissible (clusterWideOnly : bool) (r : metav1.APIResource) : bool :=
  negb (strings.ContainsRune (metav1.Name r) "/") &&
  negb (stringset.Has skipSeed (metav1.Name r)) &&
  negb (clusterWideOnly && metav1.Namespaced r).

(** Does the discovery [d] claim [name] when nothing has claimed it yet? *)
Definition claims (clusterWideOnly : bool) (name : string)
    (d : rest.RESTClient * metav1.APIResource) : bool :=
  String.eqb (metav1.Name (snd d)) name && admissible clusterWideOnly (snd d).

(** The first admissible discovery of a name. *)
Definition claimant (W : World) (s : Scanner) (vs : list metav1.APIResourceList)
    (name : string) : option (rest.RESTClient * metav1.APIResource) :=
  find (claims (clusterWideOnly s) name) (discoveries W s vs).

(** One step of the inner loop of [getAllResources] on a discovery. *)
Definition claimStep (clusterWideOnly : bool)
    (st : gset string * gmap string rest.RESTClient)
    (d : rest.RESTClient * metav1.APIResource) :=
  getAllResources_resource clusterWideOnly (fst d) st (snd d).

(** The reading of first-seen-wins under which the group/version met
    first with a name owns it in the catalog, whatever the filters made of
    that first discovery. *)
Definition first_encounter_claims : Prop :=
  ∀ (W : World) (s : Scanner) (catalog : gmap string rest.RESTClient)
    (l1 l2 : list (rest.RESTClient * metav1.APIResource))
    (c : rest.RESTClient) (r : metav1.APIResource),
    getAllResources W s = Ok catalog →
    discoveries W s (fst (ServerPreferredResources W)) = l1 ++ (c, r) :: l2 →
    (∀ d, d ∈ l1 → metav1.Name (snd d) ≠ metav1.Name r) →
    is_Some (catalog !! metav1.Name r) →
    catalog !! metav1.Name r = Some c.

(** The reading under which the capability document is written whatever
    the enumeration did, a fatal list error included: whenever the probe,
    the encoding and the write of the document would succeed, the document
    is among the files written. *)
Definition capabilities_written_whatever_enumeration : Prop :=
  ∀ (W : World) (order : list (string * rest.RESTClient)) (ns : string)
    (opts : metav1.ListOptions) (outDir : string) (d : Disk)
    (c : chartutil.Capabilities) (b : string),
    MkdirAll W outDir = None →
    getCapabilities W = (c, None) →
    json_MarshalIndent W (c, ns, releaseName (metav1.LabelSelector opts)) = Ok b →
    WriteFile W (filepath.Join outDir "caps.json") b = None →
    (filepath.Join outDir "caps.json", b) ∈ fst (ListAll W order ns opts outDir d).

(** The two stages of the [helm] probe that can fail: both liveness
    commands, or both version commands. *)
Definition livenessFails (W : World) : bool :=
  negb (isNil (fst (helm W ["ls"]))) && negb (isNil (fst (helm W ["ls"; "--tls"]))).

Definition versionFails (W : World) : bool :=
  negb (isNil (fst (helm W versionArgs))) && negb (isNil (fst (helm W versionArgsTLS))).

(** The reading under which no failure of the [helm] probe is fatal: with
    the server answering, a failure of either stage leaves the tiller
    version unset and gives no error. *)
Definition helm_probe_is_best_effort : Prop :=
  ∀ (W : World) (sv : string) (groups : metav1.APIGroupList),
    ServerVersion W = Ok sv →
    ServerGroups W = Ok groups →
    metav1.Groups groups ≠ [] →
    livenessFails W = true ∨ versionFails W = true →
    ∃ c, getCapabilities W = (c, None) ∧ chartutil.TillerVersion c = None.

(** ** A small cluster to run the scanner on *)
Module Sample.

Definition cfg : rest.Config :=
  {| rest.Host := "https://cluster.local:6443";
     rest.APIPath := EmptyString;
     rest.GroupVersion := None;
     rest.NegotiatedSerializer := false |}.

(** A [RESTClientFor] that asks for a group/version and a serializer, as
    the real one does. *)
Definition clientFor (c : rest.Config) : Result rest.RESTClient :=
  match rest.GroupVersion c with
  | Some gv =>
      if rest.NegotiatedSerializer c
      then Ok {| rest.APIVersion := gv; rest.versionedAPIPath := rest.APIPath c |}
      else Err (errorString "NegotiatedSerializer is required when initializing a RESTClient")
  | None => Err (errorString "GroupVersion is required when initializing a RESTClient")
  end.

Definition client (group version : string) : rest.RESTClient :=
  {| rest.APIVersion := {| schema.Group := group; schema.Version := version |};
     rest.versionedAPIPath :=
       if String.length group =? 0 then "/api" else "/apis" |}.

Definition item (kind ns name : string) (owners : list string)
    (annotations labels : list (string * string)) : unstructured.Unstructured :=
  {| unstructured.Kind := kind;
     unstructured.Namespace := ns;
     unstructured.Name := name;
     unstructured.Labels := list_to_map labels;
     unstructured.Annotations := list_to_map annotations;
     unstructured.OwnerReferences :=
       map (λ k, {| metav1.Kind := k; metav1.OwnerName := "owner" |}) owners;
     unstructured.Object := "kind: " +:+ kind +:+ ", name: " +:+ name |}.

Definition groups : metav1.APIGroupList :=
  {| metav1.Groups :=
       [ {| metav1.Versions := [ {| metav1.GroupVersionString := "apps/v1" |} ] |} ] |}.

(** A cluster that answers every call; the arguments are the parts the
    examples vary. *)
Definition world (vs : list metav1.APIResourceList)
    (lists : rest.Request → Result (list unstructured.Unstructured))
    (marshal : unstructured.Unstructured → Result string)
    (helm : list string → option error * string) : World :=
  {| NewForConfig := λ _, None;
     RESTClientFor := clientFor;
     ServerPreferredResources := (vs, None);
     Do := lists;
     yaml_Marshal := marshal;
     MkdirAll := λ _, None;
     WriteFile := λ _ _, None;
     ServerVersion := Ok "v1.11.0";
     ServerGroups := Ok groups;
     helm := helm;
     json_MarshalIndent := λ doc, Ok ("release: " +:+ snd doc) |}.

Definition marshalObject (i : unstructured.Unstructured) : Result string :=
  Ok (unstructured.Object i).

Definition noItems (req : rest.Request) : Result (list unstructured.Unstructured) :=
  Ok [].

(** No [helm] executable. *)
Definition helmAbsent (args : list string) : option error * string :=
  (Some (errorString "exec: helm: executable file not found in $PATH"), EmptyString).

(** Two groups that both serve a resource called [widgets], namespaced
    in the first and cluster-wide in the second. *)
Definition widgets : list metav1.APIResourceList :=
  [ {| metav1.GroupVersion := "a.example.com/v1";
       metav1.APIResources :=
         [ {| metav1.Name := "widgets"; metav1.Namespaced := true |};
           {| metav1.Name := "widgets/status"; metav1.Namespaced := true |} ] |};
    {| metav1.GroupVersion := "b.example.com/v1";
       metav1.APIResources :=
         [ {| metav1.Name := "widgets"; metav1.Namespaced := false |};
           {| metav1.Name := "events"; metav1.Namespaced := true |} ] |} ].

Definition scanner (clusterWideOnly : bool) : Scanner :=
  {| config := cfg; resourceClients := ∅; clusterWideOnly := clusterWideOnly |}.

Definition widgetsWorld : World := world widgets noItems marshalObject helmAbsent.

(** A namespace with two pods, one of them made by a replica set, a
    service-account token next to an ordinary secret, and a service; the
    cluster refuses to list nodes, does not know widgets and cannot
    serve the clusters of a cluster-manager group. *)
Definition lists (req : rest.Request) : Result (list unstructured.Unstructured) :=
  let name := rest.resource req in
  if String.eqb name "pods" then
    Ok [ item "Pod" "default" "web-1" [] [] [];
         item "Pod" "default" "web-2" ["ReplicaSet"] [] [] ]
  else if String.eqb name "secrets" then
    Ok [ item "Secret" "default" "token-x" []
           [("kubernetes.io/service-account.uid", "6f1b")] [];
         item "Secret" "default" "db-password" [] [] [] ]
  else if String.eqb name "services" then
    Ok [ item "Service" "default" "glusterfs-dynamic-claim" []
           [] [("gluster.kubernetes.io/provisioned-for-pvc", "claim")] ]
  else if String.eqb name "brokenpods" then
    Ok [ item "Pod" "default" "web-3" [] [] [];
         item "Pod" "default" "broken" ["ReplicaSet"] [] [];
         item "Pod" "default" "web-4" [] [] [] ]
  else if String.eqb name "namespaces" then
    Ok [ item "Namespace" EmptyString "default" [] [] [] ]
  else if String.eqb name "nodes" then
    Err (StatusError StatusReasonForbidden "nodes is forbidden")
  else if String.eqb name "widgets" then
    Err (StatusError StatusReasonNotFound "the server could not find the requested resource")
  else if String.eqb name "clusters" then
    Err (StatusError StatusReasonServiceUnavailable "the server is currently unable to handle the request")
  else Ok [].

(** A serializer that fails on the object called [broken]. *)
Definition marshal (i : unstructured.Unstructured) : Result string :=
  if String.eqb (unstructured.Name i) "broken"
  then Err (errorString "json: unsupported value")
  else Ok (unstructured.Object i).

(** A [helm] whose liveness command succeeds and whose two version
    commands fail. *)
Definition helmNoVersion (args : list string) : option error * string :=
  match args with
  | cmd :: _ =>
      if String.eqb cmd "ls" then (None, EmptyString)
      else (Some (errorString "exit status 1"), EmptyString)
  | [] => (None, EmptyString)
  end.

(** A [helm] that answers the plain commands. *)
Definition helmLive (args : list string) : option error * string :=
  match args with
  | cmd :: _ =>
      if String.eqb cmd "ls" then (None, EmptyString) else (None, "v2.9.1")
  | [] => (None, EmptyString)
  end.

Definition cluster : World := world [] lists marshal helmLive.
Definition clusterNoVersion : World := world [] lists marshal helmNoVersion.
Definition clusterNoHelm : World := world [] lists marshal helmAbsent.

Definition core : rest.RESTClient := client EmptyString "v1".
Definition mcm : rest.RESTClient := client "mcm.clusterapi.io" "v1alpha1".

Definition opts : metav1.ListOptions :=
  {| metav1.LabelSelector := "release=myapp,tier=web" |}.

End Sample.

(** An entry of the catalog that leaves no trace in a run: its list call
    returns no item, or fails with an error the enumeration goes past. *)
Definition quiet (W : World) (namespace : string) (opts : metav1.ListOptions)
    (entry : string * rest.RESTClient) : bool :=
  match Do W (listRequest namespace opts (fst entry) (snd entry)) with
  | Ok items => length items =? 0
  | Err e => tolerated e (snd entry)
  end.

(** A file of the enumeration: in the output directory, named by the key
    of an item that was serialized and that no filter passed over, with
    the serialized item as content. *)
Definition itemFile (W : World) (outDir : string) (f : Path * string) : Prop :=
  ∃ item, f = (filepath.Join outDir (itemKey item), snd f) ∧
          suppressed item = false ∧
          yaml_Marshal W item = Ok (snd f).

(** Where an error of [ListAll] comes from: the step of the run that
    failed, with the steps before it that went through. *)
Definition ListAll_error_origin (W : World) (order : list (string * rest.RESTClient))
    (ns : string) (opts : metav1.ListOptions) (outDir : string) (d : Disk)
    (e : error) : Prop :=
  (∃ err, MkdirAll W outDir = Some err ∧
          e = Errorf "creating output directory: " err) ∨
  (MkdirAll W outDir = None ∧
   ∃ pre name client post d1,
     order = pre ++ (name, client) :: post ∧
     forEach pre (ListAll_resource W ns opts outDir) d = (d1, Ok tt) ∧
     ((∃ err, Do W (listRequest ns opts name client) = Err err ∧
              tolerated err client = false ∧
              e = Errorf ("listing " +:+ name +:+ ": ") err) ∨
      (∃ items1 item items2 d2,
         Do W (listRequest ns opts name client) = Ok (items1 ++ item :: items2) ∧
         forEach items1 (ListAll_item W outDir) d1 = (d2, Ok tt) ∧
         ((∃ err, yaml_Marshal W item = Err err ∧
                  e = Errorf ("creating YAML for " +:+ itemKey item +:+ ": ") err) ∨
          (∃ y, yaml_Marshal W item = Ok y ∧
                suppressed item = false ∧
                WriteFile W (filepath.Join outDir (itemKey item)) y = Some e))))) ∨
  (MkdirAll W outDir = None ∧
   ∃ d1,
     forEach order (ListAll_resource W ns opts outDir) d = (d1, Ok tt) ∧
     ((∃ c err, getCapabilities W = (c, Some err) ∧
                e = Errorf "reading cluster capabilities: " err) ∨
      (∃ c, getCapabilities W = (c, None) ∧
            ((∃ err, json_MarshalIndent W
                       (c, ns, releaseName (metav1.LabelSelector opts)) = Err err ∧
                     e = Errorf "marshaling capabilities to JSON: " err) ∨
             (∃ b, json_MarshalIndent W
                     (c, ns, releaseName (metav1.LabelSelector opts)) = Ok b ∧
                   WriteFile W (filepath.Join outDir "caps.json") b = Some e))))).

(** ** A cluster in trouble *)
Module Outage.

(** The discovery call fails outright and hands back no list. *)
Definition noDiscovery : World :=
  {| NewForConfig := λ _, None;
     RESTClientFor := Sample.clientFor;
     ServerPreferredResources :=
       ([], Some (discovery.otherError (errorString "connection refused")));
     Do := Sample.lists;
     yaml_Marshal := Sample.marshal;
     MkdirAll := λ _, None;
     WriteFile := λ _ _, None;
     ServerVersion := Ok "v1.11.0";
     ServerGroups := Ok Sample.groups;
     helm := Sample.helmLive;
     json_MarshalIndent := λ doc, Ok ("release: " +:+ snd doc) |}.

(** A group/version string with one slash too many between two good ones. *)
Definition oddGroup : list metav1.APIResourceList :=
  [ {| metav1.GroupVersion := "v1";
       metav1.APIResources :=
         [ {| metav1.Name := "pods"; metav1.Namespaced := true |} ] |};
    {| metav1.GroupVersion := "a/b/v1";
       metav1.APIResources :=
         [ {| metav1.Name := "gadgets"; metav1.Namespaced := false |} ] |};
    {| metav1.GroupVersion := "apps/v1";
       metav1.APIResources :=
         [ {| metav1.Name := "deployments"; metav1.Namespaced := true |} ] |} ].

(** Two groups that serve [gadgets], the first under a group/version
    string with one slash too many. *)
Definition gadgets : list metav1.APIResourceList :=
  [ {| metav1.GroupVersion := "a/b/v1";
       metav1.APIResources :=
         [ {| metav1.Name := "gadgets"; metav1.Namespaced := false |} ] |};
    {| metav1.GroupVersion := "apps/v1";
       metav1.APIResources :=
         [ {| metav1.Name := "gadgets"; metav1.Namespaced := false |} ] |} ].

Definition gadgetsWorld : World :=
  Sample.world gadgets Sample.noItems Sample.marshalObject Sample.helmAbsent.

(** A [helm] that needs [--tls]: the plain commands fail, the plain
    version command after printing a line. *)
Definition helmTLS (args : list string) : option error * string :=
  match args with
  | [ "ls" ] => (Some (errorString "exit status 1"), EmptyString)
  | [ "ls"; "--tls" ] => (None, EmptyString)
  | [ "version"; "-s"; "--template"; _ ] =>
      (Some (errorString "exit status 1"), "Error: transport is closing")
  | _ => (None, "v2.9.1")
  end.

Definition tlsCluster : World := Sample.world [] Sample.lists Sample.marshal helmTLS.

(** A server that reports no API group at all. *)
Definition noGroups : World :=
  {| NewForConfig := λ _, None;
     RESTClientFor := Sample.clientFor;
     ServerPreferredResources := ([], None);
     Do := Sample.lists;
     yaml_Marshal := Sample.marshal;
     MkdirAll := λ _, None;
     WriteFile := λ _ _, None;
     ServerVersion := Ok "v1.11.0";
     ServerGroups := Ok {| metav1.Groups := [] |};
     helm := Sample.helmLive;
     json_MarshalIndent := λ doc, Ok ("release: " +:+ snd doc) |}.

End Outage.

(** * Properties *)

(** ** The release name *)

Section Release.

Import regexp.

Lemma append_cons (x : ascii) (a b : string) :
  String x a +:+ b = String x (a +:+ b).
Proof. reflexivity. Qed.

Lemma append_nil (b : string) : EmptyString +:+ b = b.
Proof. reflexivity. Qed.

Lemma string_length_app (a b : string) :
  String.length (a +:+ b) = String.length a + String.length b.
Proof.
  induction a as [|x a IH]; [done|].
  rewrite append_cons. simpl. by rewrite IH.
Qed.

Lemma length_take_app (a b : string) :
  strings.take (String.length (a +:+ b) - String.length b) (a +:+ b) = a.
Proof.
  rewrite string_length_app, Nat.add_sub.
  induction a as [|x a IH]; [by destruct b|].
  rewrite append_cons. simpl. by rewrite IH.
Qed.

Lemma app_assoc_snoc (a : string) (c : ascii) (b : string) :
  (a +:+ String c EmptyString) +:+ b = a +:+ String c b.
Proof.
  induction a as [|x a IH]; [done|].
  rewrite !append_cons. by rewrite IH.
Qed.

Lemma app_empty_r (a : string) : a +:+ EmptyString = a.
Proof.
  induction a as [|x a IH]; [done|].
  rewrite append_cons. by rewrite IH.
Qed.

(** A literal prefix of the pattern consumes exactly that prefix. *)
Lemma run_Str (lit : string) (rest : Regexp) (inp : string) (caps : Caps) (k : Cont) :
  run (Str lit rest) inp caps k =
  if strings.HasPrefix inp lit
  then run rest (strings.drop (String.length lit) inp) caps k
  else None.
Proof.
  revert inp. induction lit as [|p lit IH]; intros inp; simpl; [done|].
  destruct inp as [|c inp]; [done|].
  destruct (Ascii.eqb c p); simpl; [apply IH | done].
Qed.

(** One round of [.*?]: the rest of the pattern first, a byte more if
    that fails. *)
Lemma run_LazyStar_any (inp : string) (caps : Caps) (k : Cont) :
  run (LazyStar AnyCharNotNL) inp caps k =
  match k inp caps with
  | Some m => Some m
  | None =>
      match inp with
      | EmptyString => None
      | String c rest =>
          if Ascii.eqb c newline then None
          else run (LazyStar AnyCharNotNL) rest caps k
      end
  end.
Proof.
  destruct inp as [|c rest]; simpl; [by destruct (k _ _)|].
  destruct (k (String c rest) caps); [done|].
  destruct (Ascii.eqb c newline); [done|].
  by rewrite (proj2 (Nat.ltb_lt _ _) (Nat.lt_succ_diag_r _)).
Qed.

(** The separator group: a comma, or the end of the text. *)
Lemma afterValue_eq (body inp : string) (caps : Caps) :
  afterValue body inp caps =
  let v := strings.take (String.length body - String.length inp) body in
  match inp with
  | EmptyString => Some (EmptyString, <[2 := EmptyString]> (<[1 := v]> caps))
  | String c rest =>
      if Ascii.eqb c ","
      then Some (rest, <[2 := String c EmptyString]> (<[1 := v]> caps))
      else None
  end.
Proof.
  unfold afterValue. destruct inp as [|c rest]; simpl; [done|].
  destruct (Ascii.eqb c ","); [|done].
  by replace (S (String.length rest) - String.length rest) with 1 by lia.
Qed.

(** The lazy star stops at the first comma or at the end; [acc] is what
    it has consumed already. *)
Lemma run_value (rest acc : string) (caps : Caps) :
  run (LazyStar AnyCharNotNL) rest caps (afterValue (acc +:+ rest))
  = match scanValue rest with
    | Some (v, sep, after) => Some (after, <[2 := sep]> (<[1 := acc +:+ v]> caps))
    | None => None
    end.
Proof.
  revert acc. induction rest as [|c rest IH]; intros acc;
    rewrite run_LazyStar_any, afterValue_eq; cbv zeta;
    rewrite length_take_app; cbn [scanValue].
  - by rewrite app_empty_r.
  - destruct (Ascii.eqb c ",") eqn:Hc.
    + by rewrite app_empty_r.
    + destruct (Ascii.eqb c newline); [done|].
      rewrite <- (app_assoc_snoc acc c rest), IH.
      destruct (scanValue rest) as [[[v sep] after]|]; [|done].
      by rewrite app_assoc_snoc.
Qed.

(** The pattern anchored at the head of [s]. *)
Lemma matchAt_releaseRe (s : string) :
  matchAt releaseRe s =
  if strings.HasPrefix s "release="
  then match scanValue (strings.drop 8 s) with
       | Some (v, sep, after) =>
           Some [strings.take (String.length s - String.length after) s; v; sep]
       | None => None
       end
  else None.
Proof.
  unfold matchAt, releaseRe. rewrite run_Str.
  destruct (strings.HasPrefix s "release="); [|done].
  change (String.length "release=") with 8.
  set (body := strings.drop 8 s).
  change (run _ body ∅ _)
    with (run (LazyStar AnyCharNotNL) body ∅ (afterValue (EmptyString +:+ body))).
  rewrite run_value.
  destruct (scanValue body) as [[[v sep] after]|]; [|done].
  rewrite append_nil. simpl.
  rewrite lookup_insert_ne by done.
  by rewrite !lookup_insert_eq.
Qed.

Lemma FindStringSubmatch_releaseRe_cons (c : ascii) (s : string) :
  strings.HasPrefix (String c s) "release=" = false →
  FindStringSubmatch releaseRe (String c s) = FindStringSubmatch releaseRe s.
Proof.
  intros H. cbn [FindStringSubmatch]. by rewrite matchAt_releaseRe, H.
Qed.

Lemma Index_cons_inv (c : ascii) (s sub : string) (o : option nat) :
  strings.Index (String c s) sub = o →
  (strings.HasPrefix (String c s) sub = true ∧ o = Some 0) ∨
  (strings.HasPrefix (String c s) sub = false ∧ o = S <$> strings.Index s sub).
Proof.
  cbn [strings.Index]. destruct (strings.HasPrefix (String c s) sub); auto.
Qed.

(** Without the token there is no match at all. *)
Lemma FindStringSubmatch_no_token (s : string) :
  strings.Index s "release=" = None →
  FindStringSubmatch releaseRe s = None.
Proof.
  induction s as [|c s IH]; intros H.
  - reflexivity.
  - apply Index_cons_inv in H as [[_ H]|[Hp H]]; [done|].
    rewrite FindStringSubmatch_releaseRe_cons by done.
    apply IH. by destruct (strings.Index s "release=").
Qed.

Lemma scanValue_value (v tail : string) :
  strings.ContainsRune v "," = false →
  strings.ContainsRune v newline = false →
  tail = EmptyString ∨ strings.HasPrefix tail "," = true →
  ∃ sep after, scanValue (v +:+ tail) = Some (v, sep, after).
Proof.
  intros Hc Hn Ht. induction v as [|c v IH].
  - rewrite append_nil. destruct Ht as [->|Ht]; [by eexists _, _|].
    destruct tail as [|t tail]; [done|]. simpl in Ht |- *.
    destruct (Ascii.eqb t ","); [by eexists _, _ | done].
  - simpl in Hc, Hn. apply orb_false_elim in Hc as [Hc1 Hc2].
    apply orb_false_elim in Hn as [Hn1 Hn2].
    rewrite append_cons. simpl. rewrite Hc1, Hn1.
    destruct (IH Hc2 Hn2) as (sep & after & ->). by eexists _, _.
Qed.

(** The leftmost token decides: its value runs to the first comma or to
    the end of the selector. *)
Lemma releaseName_first_token (pre v tail : string) :
  strings.Index (pre +:+ "release=" +:+ v +:+ tail) "release=" = Some (String.length pre) →
  strings.ContainsRune v "," = false →
  strings.ContainsRune v newline = false →
  tail = EmptyString ∨ strings.HasPrefix tail "," = true →
  releaseName (pre +:+ "release=" +:+ v +:+ tail) = v.
Proof.
  intros Hi Hc Hn Ht. unfold releaseName.
  induction pre as [|c pre IH].
  - rewrite append_nil.
    destruct (scanValue_value v tail Hc Hn Ht) as (sep & after & Hs).
    change ("release=" +:+ v +:+ tail) with
      (String "r" (String "e" (String "l" (String "e" (String "a"
        (String "s" (String "e" (String "=" (v +:+ tail))))))))).
    cbn [FindStringSubmatch]. rewrite matchAt_releaseRe.
    cbn [strings.HasPrefix strings.drop]. by rewrite !Ascii.eqb_refl, Hs.
  - rewrite append_cons in Hi |- *.
    apply Index_cons_inv in Hi as [[_ Hi]|[Hp Hi]]; [done|].
    rewrite FindStringSubmatch_releaseRe_cons by done.
    apply IH. simpl in Hi.
    destruct (strings.Index _ _); simpl in Hi; congruence.
Qed.

End Release.

(** C6: the release name is the value of the leftmost [release=<value>]
    of the label selector, the value ending at the first comma or at the
    end of the selector.  The selector [release=myapp,tier=web] gives
    exactly [myapp]; a selector in which [release=] does not occur gives
    the empty release name; and in general the first occurrence of the
    token decides, whatever follows its value. *)
Theorem release_name_from_selector :
  releaseName "release=myapp,tier=web" = "myapp" ∧
  (∀ s : string,
     strings.Index s "release=" = None → releaseName s = EmptyString) ∧
  (∀ pre v tail : string,
     strings.Index (pre +:+ "release=" +:+ v +:+ tail) "release="
       = Some (String.length pre) →
     strings.ContainsRune v "," = false →
     strings.ContainsRune v regexp.newline = false →
     tail = EmptyString ∨ strings.HasPrefix tail "," = true →
     releaseName (pre +:+ "release=" +:+ v +:+ tail) = v).
Proof.
  split; [by vm_compute|]. split.
  - intros s H. unfold releaseName.
    by rewrite FindStringSubmatch_no_token.
  - apply releaseName_first_token.
Qed.

Lemma release_name_from_selector_witness :
  releaseName "tier=web,app=db" = EmptyString ∧
  releaseName "app=x,release=a,release=b" = "a".
Proof.
  split.
  - apply (proj1 (proj2 release_name_from_selector)). reflexivity.
  - apply (proj2 (proj2 release_name_from_selector) "app=x," "a" ",release=b").
    + reflexivity.
    + reflexivity.
    + reflexivity.
    + right. reflexivity.
Defined.

(** ** The catalog of [getAllResources] *)

Section Catalog.

Variable W : World.
Variable s : Scanner.

Lemma fold_left_map_step {A B C : Type} (f : A → C → A) (g : B → C) (l : list B) (a : A) :
  fold_left f (map g l) a = fold_left (λ a b, f a (g b)) l a.
Proof. revert a. induction l as [|b l IH]; intros a; simpl; [done | apply IH]. Qed.

(** The two nested loops are one loop over the discoveries. *)
Lemma fold_groupVersions (vs : list metav1.APIResourceList)
    (st : gset string * gmap string rest.RESTClient) :
  fold_left (getAllResources_groupVersion W s) vs st =
  fold_left (claimStep (clusterWideOnly s)) (discoveries W s vs) st.
Proof.
  revert st. induction vs as [|v vs IH]; intros st; [done|].
  unfold discoveries in *. simpl. rewrite fold_left_app, IH. f_equal.
  unfold getAllResources_groupVersion.
  destruct (schema.ParseGroupVersion _) as [gv|]; [|done].
  destruct (RESTClientFor W _) as [c|]; [|done].
  by rewrite fold_left_map_step.
Qed.

(** The loop invariant: the skip set is the seed together with the names
    claimed, and a name once claimed keeps its client. *)
Lemma claimStep_fold (cwo : bool) (l : list (rest.RESTClient * metav1.APIResource))
    (skip : gset string) (res : gmap string rest.RESTClient) :
  skip = skipSeed ∪ dom res →
  ∀ name,
    snd (fold_left (claimStep cwo) l (skip, res)) !! name =
    match res !! name with
    | Some c => Some c
    | None => fst <$> find (claims cwo name) l
    end.
Proof.
  revert skip res. induction l as [|[c r] l IH]; intros skip res Hskip name.
  - simpl. by destruct (res !! name).
  - cbn [fold_left find]. unfold claimStep at 2, getAllResources_resource.
    cbn [fst snd]. unfold stringset.Has, stringset.Add.
    assert (Hclaims : claims cwo name (c, r) =
              String.eqb (metav1.Name r) name &&
              (negb (strings.ContainsRune (metav1.Name r) "/") &&
               negb (bool_decide (metav1.Name r ∈ skipSeed)) &&
               negb (cwo && metav1.Namespaced r))) by done.
    rewrite Hclaims. clear Hclaims.
    destruct (strings.ContainsRune (metav1.Name r) "/") eqn:Hslash.
    { cbn [orb]. rewrite (IH _ _ Hskip). destruct (res !! name); [done|].
      cbn [negb andb]. by rewrite andb_false_r. }
    cbn [orb negb andb]. case_bool_decide as Hin.
    { rewrite (IH _ _ Hskip). destruct (res !! name) eqn:Hres; [done|].
      destruct (String.eqb_spec (metav1.Name r) name) as [Heq|]; [|done].
      rewrite Heq in *.
      rewrite bool_decide_eq_true_2; [by cbn [negb andb]|].
      rewrite Hskip in Hin. apply elem_of_union in Hin as [Hin|Hin]; [done|].
      apply elem_of_dom in Hin as [? Hin]. congruence. }
    destruct (cwo && metav1.Namespaced r) eqn:Hns.
    { rewrite (IH _ _ Hskip). destruct (res !! name); [done|].
      by rewrite !andb_false_r. }
    rewrite (IH ({[metav1.Name r]} ∪ skip) (<[metav1.Name r := c]> res));
      [|rewrite dom_insert_L, Hskip; set_solver].
    assert (Hfresh : res !! metav1.Name r = None).
    { apply not_elem_of_dom. set_solver. }
    destruct (String.eqb_spec (metav1.Name r) name) as [<-|Hne].
    + rewrite lookup_insert_eq, Hfresh.
      rewrite bool_decide_eq_false_2 by set_solver. done.
    + rewrite lookup_insert_ne by done. done.
Qed.

(** The catalog maps a name to the client of its first admissible
    discovery, and to nothing when it has none. *)
Lemma buildCatalog_lookup (vs : list metav1.APIResourceList) (name : string) :
  buildCatalog W s vs !! name = fst <$> claimant W s vs name.
Proof.
  unfold buildCatalog, claimant. rewrite fold_groupVersions.
  rewrite (claimStep_fold _ _ skipSeed ∅) by set_solver.
  by rewrite lookup_empty.
Qed.

(** [getAllResources] returns the catalog of the lists the discovery call
    handed back, whatever error came with them: the failure of some groups
    is printed and passed over, and for any other error the test of line
    174 reads the nil variable of the type assertion. *)
Lemma getAllResources_catalog :
  getAllResources W s = Ok (buildCatalog W s (fst (ServerPreferredResources W))).
Proof.
  unfold getAllResources.
  by destruct (ServerPreferredResources W) as [vs [[groups|e]|]].
Qed.

Lemma getAllResources_inv (catalog : gmap string rest.RESTClient) :
  getAllResources W s = Ok catalog →
  catalog = buildCatalog W s (fst (ServerPreferredResources W)).
Proof. rewrite getAllResources_catalog. by intros [= <-]. Qed.

End Catalog.

Section CatalogExamples.

Import Sample.

Example widgets_discoveries :
  discoveries widgetsWorld (scanner true) widgets =
  [ (client "a.example.com" "v1", {| metav1.Name := "widgets"; metav1.Namespaced := true |});
    (client "a.example.com" "v1", {| metav1.Name := "widgets/status"; metav1.Namespaced := true |});
    (client "b.example.com" "v1", {| metav1.Name := "widgets"; metav1.Namespaced := false |});
    (client "b.example.com" "v1", {| metav1.Name := "events"; metav1.Namespaced := true |}) ].
Proof. reflexivity. Qed.

Example widgets_cluster_wide :
  buildCatalog widgetsWorld (scanner true) widgets =
  {[ "widgets" := client "b.example.com" "v1" ]}.
Proof. by vm_compute. Qed.

Example widgets_all :
  buildCatalog widgetsWorld (scanner false) widgets =
  {[ "widgets" := client "a.example.com" "v1" ]}.
Proof. by vm_compute. Qed.

End CatalogExamples.

Lemma find_first {A : Type} (f : A → bool) (l1 l2 : list A) (x : A) :
  (∀ y, y ∈ l1 → f y = false) → f x = true → find f (l1 ++ x :: l2) = Some x.
Proof.
  intros Hl1 Hx. induction l1 as [|y l1 IH]; simpl.
  - by rewrite Hx.
  - rewrite (Hl1 y) by apply list_elem_of_here.
    apply IH. intros z Hz. apply Hl1. by apply list_elem_of_further.
Qed.

Lemma find_app_first {A : Type} (f : A → bool) (l1 l2 : list A) :
  find f (l1 ++ l2) =
  match find f l1 with
  | Some x => Some x
  | None => find f l2
  end.
Proof.
  induction l1 as [|x l1 IH]; simpl; [done|]. by destruct (f x).
Qed.

Lemma discoveries_app (W : World) (s : Scanner) (vs1 vs2 : list metav1.APIResourceList) :
  discoveries W s (vs1 ++ vs2) = discoveries W s vs1 ++ discoveries W s vs2.
Proof. unfold discoveries. apply flat_map_app. Qed.

(** Where a discovery comes from: a list whose group/version parsed and
    got a client. *)
Lemma discoveries_origin (W : World) (s : Scanner) (vs : list metav1.APIResourceList)
    (c : rest.RESTClient) (r : metav1.APIResource) :
  (c, r) ∈ discoveries W s vs ↔
  ∃ v gv, v ∈ vs ∧
          schema.ParseGroupVersion (metav1.GroupVersion v) = Ok gv ∧
          RESTClientFor W (groupVersionConfig (config s) gv) = Ok c ∧
          r ∈ metav1.APIResources v.
Proof.
  unfold discoveries. rewrite list_elem_of_In, in_flat_map. split.
  - intros (v & Hv & Hin). exists v.
    destruct (schema.ParseGroupVersion _) as [gv|]; [|done].
    destruct (RESTClientFor W _) as [c'|] eqn:Hc; [|done].
    apply in_map_iff in Hin as (r' & [= <- <-] & Hr).
    exists gv. by rewrite !list_elem_of_In.
  - intros (v & gv & Hv & Hgv & Hc & Hr). exists v.
    rewrite <- list_elem_of_In. split; [done|].
    rewrite Hgv, Hc. apply in_map_iff. exists r.
    by rewrite <- list_elem_of_In.
Qed.

(** The first resource of a list that has a given name. *)
Lemma first_resource_named (l : list metav1.APIResource) (name : string)
    (r : metav1.APIResource) :
  r ∈ l → metav1.Name r = name →
  ∃ rs1 r0 rs2, l = rs1 ++ r0 :: rs2 ∧ metav1.Name r0 = name ∧
                ∀ r', r' ∈ rs1 → metav1.Name r' ≠ name.
Proof.
  intros Hr Hname. induction l as [|r1 l IH]; [by apply elem_of_nil in Hr|].
  destruct (String.eqb_spec (metav1.Name r1) name) as [Heq|Hne].
  - exists [], r1, l. split; [done|]. split; [done|]. by intros r' Hr'%elem_of_nil.
  - apply elem_of_cons in Hr as [->|Hr]; [done|].
    destruct (IH Hr) as (rs1 & r0 & rs2 & -> & Hn0 & Hrs1).
    exists (r1 :: rs1), r0, rs2. split; [done|]. split; [done|].
    intros r' [->|Hr']%elem_of_cons; [done | by apply Hrs1].
Qed.

(** C3, as the claim has it, fails: in cluster-wide-only mode the first
    group/version met with [widgets] serves it namespaced and is passed
    over, and the second one owns the name in the catalog. *)
Lemma first_encounter_does_not_claim :
  discoveries Sample.widgetsWorld (Sample.scanner true) Sample.widgets
  = [ (Sample.client "a.example.com" "v1",
       {| metav1.Name := "widgets"; metav1.Namespaced := true |});
      (Sample.client "a.example.com" "v1",
       {| metav1.Name := "widgets/status"; metav1.Namespaced := true |});
      (Sample.client "b.example.com" "v1",
       {| metav1.Name := "widgets"; metav1.Namespaced := false |});
      (Sample.client "b.example.com" "v1",
       {| metav1.Name := "events"; metav1.Namespaced := true |}) ] ∧
  getAllResources Sample.widgetsWorld (Sample.scanner true)
  = Ok {[ "widgets" := Sample.client "b.example.com" "v1" ]} ∧
  ¬ first_encounter_claims.
Proof.
  assert (Hcat : getAllResources Sample.widgetsWorld (Sample.scanner true)
                 = Ok {[ "widgets" := Sample.client "b.example.com" "v1" ]}).
  { rewrite getAllResources_catalog. exact (f_equal Ok widgets_cluster_wide). }
  split; [reflexivity|]. split; [exact Hcat|].
  intros H.
  specialize (H Sample.widgetsWorld (Sample.scanner true)
                {[ "widgets" := Sample.client "b.example.com" "v1" ]} []
                [ (Sample.client "a.example.com" "v1",
                   {| metav1.Name := "widgets/status"; metav1.Namespaced := true |});
                  (Sample.client "b.example.com" "v1",
                   {| metav1.Name := "widgets"; metav1.Namespaced := false |});
                  (Sample.client "b.example.com" "v1",
                   {| metav1.Name := "events"; metav1.Namespaced := true |}) ]
                (Sample.client "a.example.com" "v1")
                {| metav1.Name := "widgets"; metav1.Namespaced := true |}
                Hcat eq_refl).
  cbn [metav1.Name] in H. rewrite lookup_singleton_eq in H.
  assert (Some (Sample.client "b.example.com" "v1")
          = Some (Sample.client "a.example.com" "v1")) as Heq.
  { apply H; [by intros d Hd%elem_of_nil | by eexists]. }
  discriminate Heq.
Qed.

(** C3, amended: the catalog [getAllResources] returns maps every name to
    at most one client, that of the first discovery of the name that the
    filters admit (a client was built for its group/version, the name has
    no path separator and is not in the seed skip set, and in
    cluster-wide-only mode the type is not namespaced); every later
    discovery of the name is dropped.  With the flag off, a name of the
    catalog belongs to the first group/version, in the order of the
    discovery, that lists it among those whose name parsed and for which
    a client was built; a group/version that fails either step claims
    nothing, even when it is met first. *)
Theorem first_admissible_discovery_claims (W : World) (s : Scanner)
    (catalog : gmap string rest.RESTClient) (name : string) :
  getAllResources W s = Ok catalog →
  catalog !! name = fst <$> claimant W s (fst (ServerPreferredResources W)) name ∧
  (∀ l1 l2 c r,
     discoveries W s (fst (ServerPreferredResources W)) = l1 ++ (c, r) :: l2 →
     metav1.Name r = name →
     admissible (clusterWideOnly s) r = true →
     (∀ d, d ∈ l1 → metav1.Name (snd d) = name →
           admissible (clusterWideOnly s) (snd d) = false) →
     catalog !! name = Some c) ∧
  (clusterWideOnly s = false →
   ∀ l1 l2 c r,
     discoveries W s (fst (ServerPreferredResources W)) = l1 ++ (c, r) :: l2 →
     metav1.Name r = name →
     (∀ d, d ∈ l1 → metav1.Name (snd d) ≠ name) →
     is_Some (catalog !! name) →
     catalog !! name = Some c) ∧
  (clusterWideOnly s = false →
   ∀ vs1 vs2 v gv c r,
     fst (ServerPreferredResources W) = vs1 ++ v :: vs2 →
     schema.ParseGroupVersion (metav1.GroupVersion v) = Ok gv →
     RESTClientFor W (groupVersionConfig (config s) gv) = Ok c →
     r ∈ metav1.APIResources v →
     metav1.Name r = name →
     (∀ v' gv' c' r',
        v' ∈ vs1 →
        schema.ParseGroupVersion (metav1.GroupVersion v') = Ok gv' →
        RESTClientFor W (groupVersionConfig (config s) gv') = Ok c' →
        r' ∈ metav1.APIResources v' →
        metav1.Name r' ≠ name) →
     is_Some (catalog !! name) →
     catalog !! name = Some c).
Proof.
  intros ->%getAllResources_inv. set (vs := fst (ServerPreferredResources W)).
  assert (Hoff : clusterWideOnly s = false →
            ∀ l1 l2 c r,
              discoveries W s vs = l1 ++ (c, r) :: l2 →
              metav1.Name r = name →
              (∀ d, d ∈ l1 → metav1.Name (snd d) ≠ name) →
              is_Some (buildCatalog W s vs !! name) →
              buildCatalog W s vs !! name = Some c).
  { intros Hcwo l1 l2 c r Hd Hname Hl1 [c' Hc'].
    rewrite buildCatalog_lookup in Hc'. unfold claimant in Hc'.
    destruct (find _ _) as [[c'' r']|] eqn:Hfind; [|done].
    apply find_some in Hfind as [_ Hcl]. unfold claims in Hcl. cbn [snd] in Hcl.
    apply andb_prop in Hcl as [Hn Hadm]. apply String.eqb_eq in Hn.
    rewrite buildCatalog_lookup. unfold claimant.
    rewrite Hd, (find_first _ l1 l2 (c, r)); [done| |].
    + intros d Hin. unfold claims.
      destruct (String.eqb_spec (metav1.Name d.2) name) as [Heq|]; [|done].
      by destruct (Hl1 d Hin).
    + unfold claims, admissible in *. cbn [snd]. rewrite Hcwo in *.
      rewrite Hname, <- Hn, String.eqb_refl. cbn [andb] in *.
      by rewrite andb_true_r in *. }
  split; [apply buildCatalog_lookup|]. split; [|split; [exact Hoff|]].
  - intros l1 l2 c r Hd Hname Hadm Hl1.
    rewrite buildCatalog_lookup. unfold claimant. rewrite Hd.
    rewrite (find_first _ l1 l2 (c, r)); [done| |].
    + intros d Hin. unfold claims.
      destruct (String.eqb_spec (metav1.Name d.2) name) as [Heq|]; [|done].
      by rewrite (Hl1 d Hin Heq).
    + unfold claims. cbn [snd]. by rewrite Hname, String.eqb_refl, Hadm.
  - intros Hcwo vs1 vs2 v gv c r Hvs Hgv Hc Hr Hname Hvs1 Hin.
    destruct (first_resource_named (metav1.APIResources v) name r Hr Hname)
      as (rs1' & r0 & rs2' & Hres & Hn0 & Hrs1').
    apply (Hoff Hcwo
             (discoveries W s vs1 ++ map (λ r, (c, r)) rs1')
             (map (λ r, (c, r)) rs2' ++ discoveries W s vs2) c r0); try done.
    + rewrite Hvs, discoveries_app.
      change (v :: vs2) with ([v] ++ vs2). rewrite discoveries_app.
      unfold discoveries at 2. cbn [flat_map]. rewrite Hgv, Hc, Hres, app_nil_r.
      rewrite map_app. cbn [map]. by rewrite <- !app_assoc.
    + intros [c' r'] [Hd|Hd]%elem_of_app; cbn [snd].
      * apply discoveries_origin in Hd as (v' & gv' & Hv' & Hgv' & Hc' & Hr').
        by apply (Hvs1 v' gv' c' r').
      * rewrite list_elem_of_In in Hd. apply in_map_iff in Hd as (r'' & [= _ <-] & Hr'').
        apply Hrs1'. by rewrite list_elem_of_In.
Qed.

Lemma first_admissible_discovery_claims_witness :
  buildCatalog Sample.widgetsWorld (Sample.scanner true) Sample.widgets !! "widgets"
  = Some (Sample.client "b.example.com" "v1") ∧
  buildCatalog Sample.widgetsWorld (Sample.scanner false) Sample.widgets !! "widgets"
  = Some (Sample.client "a.example.com" "v1") ∧
  buildCatalog Outage.gadgetsWorld (Sample.scanner false) Outage.gadgets !! "gadgets"
  = Some (Sample.client "apps" "v1").
Proof.
  split; [|split].
  - apply (proj1 (proj2 (first_admissible_discovery_claims
                           Sample.widgetsWorld (Sample.scanner true)
                           (buildCatalog Sample.widgetsWorld (Sample.scanner true)
                              Sample.widgets)
                           "widgets" eq_refl))
             [ (Sample.client "a.example.com" "v1",
                {| metav1.Name := "widgets"; metav1.Namespaced := true |});
               (Sample.client "a.example.com" "v1",
                {| metav1.Name := "widgets/status"; metav1.Namespaced := true |}) ]
             [ (Sample.client "b.example.com" "v1",
                {| metav1.Name := "events"; metav1.Namespaced := true |}) ]
             (Sample.client "b.example.com" "v1")
             {| metav1.Name := "widgets"; metav1.Namespaced := false |}).
    + reflexivity.
    + reflexivity.
    + vm_compute. reflexivity.
    + intros d Hd _.
      apply elem_of_cons in Hd as [->|Hd]; [vm_compute; reflexivity|].
      apply elem_of_cons in Hd as [->|Hd]; [vm_compute; reflexivity|].
      by apply elem_of_nil in Hd.
  - apply (proj1 (proj2 (proj2 (first_admissible_discovery_claims
                           Sample.widgetsWorld (Sample.scanner false)
                           (buildCatalog Sample.widgetsWorld (Sample.scanner false)
                              Sample.widgets)
                           "widgets" eq_refl)))
             eq_refl []
             [ (Sample.client "a.example.com" "v1",
                {| metav1.Name := "widgets/status"; metav1.Namespaced := true |});
               (Sample.client "b.example.com" "v1",
                {| metav1.Name := "widgets"; metav1.Namespaced := false |});
               (Sample.client "b.example.com" "v1",
                {| metav1.Name := "events"; metav1.Namespaced := true |}) ]
             (Sample.client "a.example.com" "v1")
             {| metav1.Name := "widgets"; metav1.Namespaced := true |}).
    + reflexivity.
    + reflexivity.
    + intros d Hd. by apply elem_of_nil in Hd.
    + exists (Sample.client "a.example.com" "v1"). vm_compute. reflexivity.
  - apply (proj2 (proj2 (proj2 (first_admissible_discovery_claims
                           Outage.gadgetsWorld (Sample.scanner false)
                           (buildCatalog Outage.gadgetsWorld (Sample.scanner false)
                              Outage.gadgets)
                           "gadgets" eq_refl)))
             eq_refl
             [ {| metav1.GroupVersion := "a/b/v1";
                  metav1.APIResources :=
                    [ {| metav1.Name := "gadgets"; metav1.Namespaced := false |} ] |} ]
             []
             {| metav1.GroupVersion := "apps/v1";
                metav1.APIResources :=
                  [ {| metav1.Name := "gadgets"; metav1.Namespaced := false |} ] |}
             {| schema.Group := "apps"; schema.Version := "v1" |}
             (Sample.client "apps" "v1")
             {| metav1.Name := "gadgets"; metav1.Namespaced := false |}).
    + reflexivity.
    + reflexivity.
    + reflexivity.
    + apply list_elem_of_here.
    + reflexivity.
    + intros v' gv' c' r' Hv' Hgv'.
      apply list_elem_of_singleton in Hv' as ->. vm_compute in Hgv'. discriminate Hgv'.
    + exists (Sample.client "apps" "v1"). vm_compute. reflexivity.
Defined.

(** C9: whatever the mode, an entry of the catalog [getAllResources]
    returns has a name without a path separator and outside the permanent
    skip set, so none of [componentstatuses], [controllerrevisions],
    [events], [endpoints] and [packagemanifests] is ever in the catalog;
    and the resource type an entry was claimed from is not namespaced when
    the scanner is in cluster-wide-only mode. *)
Theorem catalog_entries_pass_filters (W : World) (s : Scanner)
    (catalog : gmap string rest.RESTClient) :
  getAllResources W s = Ok catalog →
  (∀ name c,
     catalog !! name = Some c →
     strings.ContainsRune name "/" = false ∧
     (name ∉ skipSeed) ∧
     ∃ r, claimant W s (fst (ServerPreferredResources W)) name = Some (c, r) ∧
          (c, r) ∈ discoveries W s (fst (ServerPreferredResources W)) ∧
          metav1.Name r = name ∧
          (clusterWideOnly s = true → metav1.Namespaced r = false)) ∧
  (∀ name,
     name ∈ [ "componentstatuses"; "controllerrevisions"; "events";
              "endpoints"; "packagemanifests" ] →
     catalog !! name = None) ∧
  (∀ name, strings.ContainsRune name "/" = true → catalog !! name = None).
Proof.
  intros ->%getAllResources_inv. set (vs := fst (ServerPreferredResources W)).
  assert (Hentry : ∀ name c,
            buildCatalog W s vs !! name = Some c →
            ∃ r, claimant W s vs name = Some (c, r) ∧
                 (c, r) ∈ discoveries W s vs ∧
                 metav1.Name r = name ∧
                 admissible (clusterWideOnly s) r = true).
  { intros name c Hc. rewrite buildCatalog_lookup in Hc.
    destruct (claimant W s vs name) as [[c' r]|] eqn:Hcl; [|done].
    injection Hc as ->. exists r. split; [done|].
    unfold claimant in Hcl. apply find_some in Hcl as [Hin Hcl].
    unfold claims in Hcl. cbn [snd] in Hcl.
    apply andb_prop in Hcl as [Hn Hadm]. apply String.eqb_eq in Hn.
    by rewrite <- list_elem_of_In in Hin. }
  assert (Hfilters : ∀ name c,
            buildCatalog W s vs !! name = Some c →
            strings.ContainsRune name "/" = false ∧ name ∉ skipSeed).
  { intros name c Hc. destruct (Hentry name c Hc) as (r & _ & _ & <- & Hadm).
    unfold admissible, stringset.Has in Hadm.
    apply andb_prop in Hadm as [Hadm _]. apply andb_prop in Hadm as [Hslash Hseed].
    apply negb_true_iff in Hslash. apply negb_true_iff in Hseed.
    by apply bool_decide_eq_false in Hseed. }
  split; [|split].
  - intros name c Hc. destruct (Hfilters name c Hc) as [Hslash Hseed].
    split; [done|]. split; [done|].
    destruct (Hentry name c Hc) as (r & Hcl & Hin & Hn & Hadm).
    exists r. repeat split; try done.
    intros Hcwo. unfold admissible in Hadm. rewrite Hcwo in Hadm.
    apply andb_prop in Hadm as [_ Hns]. by apply negb_true_iff in Hns.
  - intros name Hname.
    destruct (buildCatalog W s vs !! name) as [c|] eqn:Hc; [|done].
    destruct (Hfilters name c Hc) as [_ Hseed]. destruct Hseed.
    unfold skipSeed, stringset.New. by apply elem_of_list_to_set.
  - intros name Hslash.
    destruct (buildCatalog W s vs !! name) as [c|] eqn:Hc; [|done].
    destruct (Hfilters name c Hc) as [Hno _]. congruence.
Qed.

Lemma catalog_entries_pass_filters_witness :
  strings.ContainsRune "widgets" "/" = false ∧
  ("widgets" ∉ skipSeed) ∧
  (∃ r, claimant Sample.widgetsWorld (Sample.scanner true) Sample.widgets "widgets"
        = Some (Sample.client "b.example.com" "v1", r) ∧
        (Sample.client "b.example.com" "v1", r)
          ∈ discoveries Sample.widgetsWorld (Sample.scanner true) Sample.widgets ∧
        metav1.Name r = "widgets" ∧
        (true = true → metav1.Namespaced r = false)) ∧
  buildCatalog Sample.widgetsWorld (Sample.scanner true) Sample.widgets !! "events" = None ∧
  buildCatalog Sample.widgetsWorld (Sample.scanner true) Sample.widgets !! "widgets/status" = None.
Proof.
  pose proof (catalog_entries_pass_filters
                Sample.widgetsWorld (Sample.scanner true)
                (buildCatalog Sample.widgetsWorld (Sample.scanner true) Sample.widgets)
                eq_refl)
    as (Hentry & Hseed & Hslash).
  destruct (Hentry "widgets" (Sample.client "b.example.com" "v1")) as (H1 & H2 & H3).
  { vm_compute. reflexivity. }
  split; [exact H1|]. split; [exact H2|]. split; [exact H3|]. split.
  - apply Hseed. do 2 apply list_elem_of_further. apply list_elem_of_here.
  - apply Hslash. reflexivity.
Defined.

(** ** The enumeration of [ListAll] *)

Section Enumeration.

Variable W : World.

Lemma andThen_ok {A B : Type} (m : M A) (k : M B) (d d' : Disk) (a : A) :
  m d = (d', Ok a) → (m >> k) d = k d'.
Proof. intros H. unfold andThen, bind. by rewrite H. Qed.

Lemma andThen_err {A B : Type} (m : M A) (k : M B) (d d' : Disk) (e : error) :
  m d = (d', Err e) → (m >> k) d = (d', Err e).
Proof. intros H. unfold andThen, bind. by rewrite H. Qed.

(** A loop whose first part runs through goes on with the rest. *)
Lemma forEach_app_ok {A : Type} (body : A → M unit) (l1 l2 : list A) (d d' : Disk) :
  forEach l1 body d = (d', Ok tt) →
  forEach (l1 ++ l2) body d = forEach l2 body d'.
Proof.
  revert d. induction l1 as [|x l1 IH]; intros d H; simpl in *.
  - unfold ret in H. by injection H as ->.
  - unfold andThen, bind in *.
    destruct (body x d) as [d1 [[]|e]]; [by apply IH | done].
Qed.

(** A loop ends at the first element whose body returns an error. *)
Lemma forEach_stops {A : Type} (body : A → M unit) (l1 l2 : list A) (x : A)
    (d d1 d2 : Disk) (e : error) :
  forEach l1 body d = (d1, Ok tt) →
  body x d1 = (d2, Err e) →
  forEach (l1 ++ x :: l2) body d = (d2, Err e).
Proof.
  intros H1 Hx. rewrite (forEach_app_ok body l1 (x :: l2) d d1 H1). simpl.
  by apply andThen_err.
Qed.

Lemma listErrorIsFatal_tolerated (e : error) (client : rest.RESTClient) :
  listErrorIsFatal e client = negb (tolerated e client).
Proof.
  unfold listErrorIsFatal, tolerated.
  by destruct (IsNotFound e), (IsMethodNotSupported e),
    (IsBadRequest e || IsServiceUnavailable e), (strings.HasSuffix _ _).
Qed.

(** An enumeration that fails makes the whole of [ListAll] fail, with
    nothing written after the failure. *)
Lemma ListAll_enumeration_err (order : list (string * rest.RESTClient))
    (ns : string) (opts : metav1.ListOptions) (outDir : string)
    (d d' : Disk) (e : error) :
  MkdirAll W outDir = None →
  forEach order (ListAll_resource W ns opts outDir) d = (d', Err e) →
  ListAll W order ns opts outDir d = (d', Err e).
Proof. intros Hm H. unfold ListAll. rewrite Hm. by apply andThen_err. Qed.

Lemma ListAll_enumeration_ok (order : list (string * rest.RESTClient))
    (ns : string) (opts : metav1.ListOptions) (outDir : string) (d d' : Disk) :
  MkdirAll W outDir = None →
  forEach order (ListAll_resource W ns opts outDir) d = (d', Ok tt) →
  ListAll W order ns opts outDir d = ListAll_capabilities W ns opts outDir d'.
Proof. intros Hm H. unfold ListAll. rewrite Hm. by apply andThen_ok with tt. Qed.

End Enumeration.

(** C2: a list error that is not-found, or method-not-supported, or
    bad-request or service-unavailable from a client whose group name ends
    in [.clusterapi.io], counts as zero results: nothing is written for
    the resource type, no error is returned and the loop goes on with the
    next type.  Any other list error makes [ListAll] return at once with
    the error [listing <name>: ...], whatever entries are left and without
    the capability step. *)
Theorem list_error_policy (W : World) (ns : string) (opts : metav1.ListOptions)
    (outDir name : string) (client : rest.RESTClient) (e : error)
    (later : list (string * rest.RESTClient)) (d : Disk) :
  Do W (listRequest ns opts name client) = Err e →
  (tolerated e client = true ↔
     IsNotFound e = true ∨ IsMethodNotSupported e = true ∨
     ((IsBadRequest e = true ∨ IsServiceUnavailable e = true) ∧
      strings.HasSuffix (schema.Group (rest.APIVersion client)) ".clusterapi.io" = true)) ∧
  (tolerated e client = true →
     ListAll_resource W ns opts outDir (name, client) d = (d, Ok tt) ∧
     forEach ((name, client) :: later) (ListAll_resource W ns opts outDir) d
     = forEach later (ListAll_resource W ns opts outDir) d) ∧
  (tolerated e client = false →
     ListAll_resource W ns opts outDir (name, client) d
     = (d, Err (Errorf ("listing " +:+ name +:+ ": ") e)) ∧
     ∀ pre d0,
       MkdirAll W outDir = None →
       forEach pre (ListAll_resource W ns opts outDir) d0 = (d, Ok tt) →
       ListAll W (pre ++ (name, client) :: later) ns opts outDir d0
       = (d, Err (Errorf ("listing " +:+ name +:+ ": ") e))).
Proof.
  intros HDo.
  assert (Hstep : ListAll_resource W ns opts outDir (name, client) d =
                  if tolerated e client then (d, Ok tt)
                  else (d, Err (Errorf ("listing " +:+ name +:+ ": ") e))).
  { unfold ListAll_resource. rewrite HDo. cbn [Into length Nat.eqb].
    rewrite listErrorIsFatal_tolerated. by destruct (tolerated e client). }
  split; [|split].
  - unfold tolerated.
    rewrite !orb_true_iff, andb_true_iff, orb_true_iff. tauto.
  - intros Ht. rewrite Ht in Hstep. split; [done|].
    cbn [forEach]. by apply andThen_ok with tt.
  - intros Ht. rewrite Ht in Hstep. split; [done|].
    intros pre d0 Hm Hpre. apply ListAll_enumeration_err; [done|].
    by apply (forEach_stops _ _ _ _ _ d d).
Qed.

Lemma list_error_policy_witness :
  (forEach [("widgets", Sample.core); ("pods", Sample.core)]
     (ListAll_resource Sample.cluster "default" Sample.opts "out") []
   = forEach [("pods", Sample.core)]
       (ListAll_resource Sample.cluster "default" Sample.opts "out") []) ∧
  ListAll Sample.cluster
    [("widgets", Sample.core); ("clusters", Sample.mcm); ("nodes", Sample.core);
     ("pods", Sample.core)]
    "default" Sample.opts "out" []
  = ([], Err (errorString "listing nodes: nodes is forbidden")).
Proof.
  split.
  - pose proof (list_error_policy Sample.cluster "default" Sample.opts "out" "widgets"
                  Sample.core
                  (StatusError StatusReasonNotFound
                     "the server could not find the requested resource")
                  [("pods", Sample.core)] [] eq_refl) as (_ & Htolerated & _).
    apply Htolerated. reflexivity.
  - pose proof (list_error_policy Sample.cluster "default" Sample.opts "out" "nodes"
                  Sample.core (StatusError StatusReasonForbidden "nodes is forbidden")
                  [("pods", Sample.core)] [] eq_refl) as (_ & _ & Hfatal).
    apply (proj2 (Hfatal eq_refl) [("widgets", Sample.core); ("clusters", Sample.mcm)] []).
    + reflexivity.
    + vm_compute. reflexivity.
Defined.

(** ** The filters of [ListAll] *)

Section Filters.

Variable W : World.

Lemma nonempty_ltb (s : string) :
  (0 <? String.length s) = negb (String.eqb s EmptyString).
Proof. by destruct s. Qed.

(** The body of the item loop: serialize, then filter, then write. *)
Lemma ListAll_item_eq (outDir : string) (item : unstructured.Unstructured) :
  ListAll_item W outDir item =
  match yaml_Marshal W item with
  | Err err => fail (Errorf ("creating YAML for " +:+ itemKey item +:+ ": ") err)
  | Ok y =>
      if suppressed item then ret tt
      else writeFile W (filepath.Join outDir (itemKey item)) y
  end.
Proof.
  unfold ListAll_item, suppressed, ownedByController, tokenSecret, provisionedService.
  destruct (yaml_Marshal W item) as [y|err]; [|done].
  rewrite !nonempty_ltb.
  destruct (ownedKindsToSkip !! unstructured.Kind item) as [skip|];
    [destruct (ownedBy skip _); [done|]|];
    cbn [orb];
    by destruct (String.eqb (unstructured.Kind item) "Secret" && _),
                (String.eqb (unstructured.Kind item) "Service" && _).
Qed.



(** The keys of the ownership table are the three controller-made kinds. *)
Lemma ownedKindsToSkip_lookup (kind : string) (skip : gset string) :
  ownedKindsToSkip !! kind = Some skip ↔
  (kind = "Pod" ∧
   skip = list_to_set ["ReplicationController"; "ReplicaSet"; "StatefulSet";
                       "DaemonSet"; "Job"]) ∨
  (kind = "ReplicaSet" ∧ skip = list_to_set ["Deployment"]) ∨
  (kind = "Job" ∧ skip = list_to_set ["CronJob"]).
Proof.
  unfold ownedKindsToSkip, stringset.New.
  rewrite !lookup_insert_Some, lookup_empty. split.
  - intros [[<- <-]|[? [[<- <-]|[? [[<- <-]|[? ?]]]]]]; auto. done.
  - intros [[-> ->]|[[-> ->]|[-> ->]]]; [by left | right | right].
    + split; [done|]. by left.
    + split; [done|]. right. split; [done|]. by left.
Qed.


End Filters.





(** C10: the item is serialized before any filter is consulted.  When the
    serialization fails the body of the loop returns the error
    [creating YAML for <key>: ...] whether or not a filter would have
    passed the item over, and [ListAll] ends there with that error: what
    was written before stays, the rest of the items, the rest of the
    resource types and the capability step are not reached.  The filters
    decide only for an item that was serialized. *)
Theorem serialization_precedes_filters (W : World) (outDir : string)
    (item : unstructured.Unstructured) (e : error) (d : Disk) :
  yaml_Marshal W item = Err e →
  ListAll_item W outDir item d
  = (d, Err (Errorf ("creating YAML for " +:+ itemKey item +:+ ": ") e)) ∧
  (∀ ns opts name client items1 items2 pre post d0 d1,
     MkdirAll W outDir = None →
     forEach pre (ListAll_resource W ns opts outDir) d0 = (d1, Ok tt) →
     Do W (listRequest ns opts name client) = Ok (items1 ++ item :: items2) →
     forEach items1 (ListAll_item W outDir) d1 = (d, Ok tt) →
     ListAll W (pre ++ (name, client) :: post) ns opts outDir d0
     = (d, Err (Errorf ("creating YAML for " +:+ itemKey item +:+ ": ") e))) ∧
  (∀ item' y, yaml_Marshal W item' = Ok y → suppressed item' = true →
              ListAll_item W outDir item' d = (d, Ok tt)).
Proof.
  intros He.
  assert (Hitem : ∀ d', ListAll_item W outDir item d'
                        = (d', Err (Errorf ("creating YAML for " +:+ itemKey item +:+ ": ") e))).
  { intros d'. rewrite ListAll_item_eq. by rewrite He. }
  split; [apply Hitem|]. split.
  - intros ns opts name client items1 items2 pre post d0 d1 Hm Hpre HDo Hitems.
    apply ListAll_enumeration_err; [done|].
    apply (forEach_stops _ _ _ _ _ d1 d); [done|].
    unfold ListAll_resource. rewrite HDo. cbn [Into].
    replace (length (items1 ++ item :: items2) =? 0) with false
      by (symmetry; apply Nat.eqb_neq; rewrite length_app; simpl; lia).
    by apply (forEach_stops _ _ _ _ _ d d).
  - intros item' y Hy Hs. rewrite ListAll_item_eq. by rewrite Hy, Hs.
Qed.

Lemma serialization_precedes_filters_witness :
  suppressed (Sample.item "Pod" "default" "broken" ["ReplicaSet"] [] []) = true ∧
  ListAll Sample.cluster [("widgets", Sample.core); ("brokenpods", Sample.core);
                          ("pods", Sample.core)]
    "default" Sample.opts "out" []
  = ([(filepath.Join "out" "scanned-pod-default-web-3.yaml", "kind: Pod, name: web-3")],
     Err (errorString
            "creating YAML for scanned-pod-default-broken.yaml: json: unsupported value")).
Proof.
  split; [by vm_compute|].
  apply (proj1 (proj2 (serialization_precedes_filters Sample.cluster "out"
                         (Sample.item "Pod" "default" "broken" ["ReplicaSet"] [] [])
                         (errorString "json: unsupported value")
                         [(filepath.Join "out" "scanned-pod-default-web-3.yaml",
                           "kind: Pod, name: web-3")]
                         eq_refl))
           "default" Sample.opts "brokenpods" Sample.core
           [Sample.item "Pod" "default" "web-3" [] [] []]
           [Sample.item "Pod" "default" "web-4" [] [] []]
           [("widgets", Sample.core)] [("pods", Sample.core)] [] []).
  - reflexivity.
  - vm_compute. reflexivity.
  - reflexivity.
  - vm_compute. reflexivity.
Defined.

(** ** The files written *)

Lemma forEach_writes {A : Type} (body : A → M unit) (P : A → Path * string → Prop)
    (l : list A) :
  (∀ x d, x ∈ l → ∃ new, fst (body x d) = d ++ new ∧ ∀ f, f ∈ new → P x f) →
  ∀ d, ∃ new, fst (forEach l body d) = d ++ new ∧
              ∀ f, f ∈ new → ∃ x, x ∈ l ∧ P x f.
Proof.
  induction l as [|x l IH]; intros Hbody d.
  - exists []. split; [by rewrite app_nil_r|]. by intros f Hf%elem_of_nil.
  - destruct (Hbody x d (list_elem_of_here _ _)) as (new1 & Hd1 & Hnew1).
    cbn [forEach]. unfold andThen, bind.
    destruct (body x d) as [d1 [[]|e]]; cbn [fst] in *; subst d1.
    + destruct (IH (λ y d' Hy, Hbody y d' (list_elem_of_further _ _ _ Hy)) (d ++ new1))
        as (new2 & Hd2 & Hnew2).
      exists (new1 ++ new2). split; [by rewrite Hd2, app_assoc|].
      intros f [Hf|Hf]%elem_of_app.
      * exists x. split; [apply list_elem_of_here | by apply Hnew1].
      * destruct (Hnew2 f Hf) as (y & Hy & HP).
        exists y. split; [by apply list_elem_of_further | done].
    + exists new1. split; [done|].
      intros f Hf. exists x. split; [apply list_elem_of_here | by apply Hnew1].
Qed.

(** What the body of the item loop adds to the disk: nothing, or the
    serialized item under its key. *)
Lemma ListAll_item_writes (W : World) (outDir : string)
    (item : unstructured.Unstructured) (d : Disk) :
  ∃ new, fst (ListAll_item W outDir item d) = d ++ new ∧
         ∀ f, f ∈ new →
              ∃ y, yaml_Marshal W item = Ok y ∧ suppressed item = false ∧
                   f = (filepath.Join outDir (itemKey item), y).
Proof.
  rewrite ListAll_item_eq.
  destruct (yaml_Marshal W item) as [y|e].
  - destruct (suppressed item) eqn:Hs.
    + exists []. split; [by rewrite app_nil_r|]. by intros f Hf%elem_of_nil.
    + unfold writeFile. destruct (WriteFile W _ y).
      * exists []. split; [by rewrite app_nil_r|]. by intros f Hf%elem_of_nil.
      * eexists. split; [done|]. intros f ->%list_elem_of_singleton. by exists y.
  - exists []. split; [by rewrite app_nil_r|]. by intros f Hf%elem_of_nil.
Qed.

(** C7: the file of a retained item is named
    ["scanned-" + lowercase(kind) + "-" + namespace + "-" + name + ".yaml"]:
    the body of the item loop writes nothing or exactly that file, and
    every file the enumeration writes is the file so named of an item
    that one of the list calls returned and no filter passed over.  The
    Pod [web-1] of namespace [default] gets
    [scanned-pod-default-web-1.yaml]; the Namespace [default], which has
    no namespace of its own, gets [scanned-namespace--default.yaml]. *)
Theorem file_name_of_item (W : World) (ns : string) (opts : metav1.ListOptions)
    (outDir : string) (order : list (string * rest.RESTClient)) (d : Disk) :
  (∀ item,
     itemKey item =
     "scanned-" +:+ strings.ToLower (unstructured.Kind item) +:+ "-" +:+
     unstructured.Namespace item +:+ "-" +:+ unstructured.Name item +:+ ".yaml") ∧
  (∃ new,
     fst (forEach order (ListAll_resource W ns opts outDir) d) = d ++ new ∧
     ∀ f, f ∈ new →
       ∃ name client items item y,
         (name, client) ∈ order ∧
         Do W (listRequest ns opts name client) = Ok items ∧
         item ∈ items ∧
         yaml_Marshal W item = Ok y ∧
         suppressed item = false ∧
         f = (filepath.Join outDir
                ("scanned-" +:+ strings.ToLower (unstructured.Kind item) +:+ "-" +:+
                 unstructured.Namespace item +:+ "-" +:+ unstructured.Name item +:+
                 ".yaml"), y)) ∧
  (∀ item y d',
     yaml_Marshal W item = Ok y →
     suppressed item = false →
     WriteFile W
       (filepath.Join outDir
          ("scanned-" +:+ strings.ToLower (unstructured.Kind item) +:+ "-" +:+
           unstructured.Namespace item +:+ "-" +:+ unstructured.Name item +:+ ".yaml"))
       y = None →
     ListAll_item W outDir item d'
     = (d' ++ [(filepath.Join outDir
                  ("scanned-" +:+ strings.ToLower (unstructured.Kind item) +:+ "-" +:+
                   unstructured.Namespace item +:+ "-" +:+ unstructured.Name item +:+
                   ".yaml"), y)], Ok tt)) ∧
  (∀ labels annotations owners object,
     itemKey {| unstructured.Kind := "Pod";
                unstructured.Namespace := "default";
                unstructured.Name := "web-1";
                unstructured.Labels := labels;
                unstructured.Annotations := annotations;
                unstructured.OwnerReferences := owners;
                unstructured.Object := object |}
     = "scanned-pod-default-web-1.yaml") ∧
  (∀ labels annotations owners object,
     itemKey {| unstructured.Kind := "Namespace";
                unstructured.Namespace := EmptyString;
                unstructured.Name := "default";
                unstructured.Labels := labels;
                unstructured.Annotations := annotations;
                unstructured.OwnerReferences := owners;
                unstructured.Object := object |}
     = "scanned-namespace--default.yaml").
Proof.
  split; [done|]. split; [|split; [|by split]]; cycle 1.
  { intros item y d' Hy Hs Hw. rewrite ListAll_item_eq, Hy, Hs.
    unfold writeFile, itemKey. by rewrite Hw. }
  destruct (forEach_writes (ListAll_resource W ns opts outDir)
              (λ entry f,
                 ∃ items item y,
                   Do W (listRequest ns opts entry.1 entry.2) = Ok items ∧
                   item ∈ items ∧ yaml_Marshal W item = Ok y ∧
                   suppressed item = false ∧
                   f = (filepath.Join outDir (itemKey item), y))
              order) with d as (new & Hd & Hnew).
  - intros [name client] d' _. unfold ListAll_resource.
    destruct (Do W (listRequest ns opts name client)) as [items|e] eqn:HDo;
      cbn [Into length Nat.eqb].
    + destruct (forEach_writes (ListAll_item W outDir)
                  (λ item f, ∃ y, yaml_Marshal W item = Ok y ∧
                                  suppressed item = false ∧
                                  f = (filepath.Join outDir (itemKey item), y))
                  items (λ item d'' _, ListAll_item_writes W outDir item d'') d')
        as (new & Hd & Hnew).
      destruct (length items =? 0) eqn:Hlen.
      * exists []. split; [by rewrite app_nil_r|]. by intros f Hf%elem_of_nil.
      * exists new. split; [done|]. intros f Hf.
        destruct (Hnew f Hf) as (item & Hitem & y & Hy & Hs & ->).
        by exists items, item, y.
    + exists []. split; [|by intros f Hf%elem_of_nil].
      rewrite app_nil_r. by destruct (listErrorIsFatal e client).
  - exists new. split; [done|]. intros f Hf.
    destruct (Hnew f Hf) as ([name client] & Hin & items & item & y & HDo & Hi & Hy & Hs & ->).
    by exists name, client, items, item, y.
Qed.

Lemma file_name_of_item_witness :
  ListAll_item Sample.cluster "out"
    (Sample.item "Namespace" EmptyString "default" [] [] []) []
  = ([(filepath.Join "out" "scanned-namespace--default.yaml",
       "kind: Namespace, name: default")], Ok tt).
Proof.
  apply (proj1 (proj2 (proj2 (file_name_of_item Sample.cluster "default" Sample.opts
                                "out" [] [])))
           (Sample.item "Namespace" EmptyString "default" [] [] [])
           "kind: Namespace, name: default" []).
  - reflexivity.
  - vm_compute. reflexivity.
  - reflexivity.
Defined.

(** The entries a [range] over the catalog visits are the entries of the
    catalog, each once. *)
Lemma rangeOver_entries (s : Scanner) (order : list (string * rest.RESTClient)) :
  rangeOver s order →
  NoDup (order.*1) ∧
  ∀ name c, (name, c) ∈ order ↔ resourceClients s !! name = Some c.
Proof.
  unfold rangeOver. intros H. split.
  - rewrite H. apply NoDup_fst_map_to_list.
  - intros name c. rewrite H. apply elem_of_map_to_list.
Qed.

(** ** The capability document *)

(** A run of the sample cluster that gets through: the Pod made by a
    replica set, the token Secret and the provisioned Service leave no
    file, and the capability document comes last. *)
Example sample_run :
  ListAll Sample.cluster
    [("pods", Sample.core); ("widgets", Sample.core); ("secrets", Sample.core);
     ("services", Sample.core); ("namespaces", Sample.core)]
    "default" Sample.opts "out" []
  = ([ (filepath.Join "out" "scanned-pod-default-web-1.yaml", "kind: Pod, name: web-1");
       (filepath.Join "out" "scanned-secret-default-db-password.yaml",
        "kind: Secret, name: db-password");
       (filepath.Join "out" "scanned-namespace--default.yaml",
        "kind: Namespace, name: default");
       (filepath.Join "out" "caps.json", "release: myapp") ], Ok tt).
Proof. by vm_compute. Qed.

(** C5, as the claim has it, fails: when the cluster refuses to list
    nodes, [ListAll] returns the list error and writes no capability
    document, although the probe, the encoding and the write would all
    have succeeded. *)
Lemma fatal_list_error_skips_capabilities :
  ListAll Sample.cluster [("nodes", Sample.core)] "default" Sample.opts "out" []
  = ([], Err (errorString "listing nodes: nodes is forbidden")) ∧
  getCapabilities Sample.cluster
  = ({| chartutil.KubeVersion := Some "v1.11.0";
        chartutil.APIVersions := Some (chartutil.NewVersionSet ["apps/v1"]);
        chartutil.TillerVersion := Some "v2.9.1" |}, None) ∧
  ¬ capabilities_written_whatever_enumeration.
Proof.
  assert (Hrun : ListAll Sample.cluster [("nodes", Sample.core)] "default" Sample.opts
                   "out" []
                 = ([], Err (errorString "listing nodes: nodes is forbidden")))
    by (by vm_compute).
  split; [exact Hrun|]. split; [reflexivity|].
  intros H.
  specialize (H Sample.cluster [("nodes", Sample.core)] "default" Sample.opts "out" []
                {| chartutil.KubeVersion := Some "v1.11.0";
                   chartutil.APIVersions := Some (chartutil.NewVersionSet ["apps/v1"]);
                   chartutil.TillerVersion := Some "v2.9.1" |}
                "release: myapp" eq_refl eq_refl eq_refl eq_refl).
  rewrite Hrun in H. by apply elem_of_nil in H.
Qed.

(** C5, amended: in every run of [ListAll] whose enumeration ends without
    a fatal error the capability step runs once, after the enumeration and
    whatever the enumeration retrieved or wrote: the run ends as the
    capability step ends on the disk the enumeration left.  When the
    probe, the encoding and the write succeed, the document [caps.json] is
    the one file added, last; when the probe, the encoding or the write
    fails, [ListAll] returns that error and adds no file.  A fatal error
    of the enumeration is the result of the run, on the disk as it was at
    the error: the capability document is then neither produced nor
    written. *)
Theorem capabilities_after_enumeration (W : World)
    (order : list (string * rest.RESTClient)) (ns : string)
    (opts : metav1.ListOptions) (outDir : string) (d : Disk) :
  MkdirAll W outDir = None →
  (∀ d' e,
     forEach order (ListAll_resource W ns opts outDir) d = (d', Err e) →
     ListAll W order ns opts outDir d = (d', Err e)) ∧
  (∀ d',
     forEach order (ListAll_resource W ns opts outDir) d = (d', Ok tt) →
     ListAll W order ns opts outDir d = ListAll_capabilities W ns opts outDir d' ∧
     (∀ c b,
        getCapabilities W = (c, None) →
        json_MarshalIndent W (c, ns, releaseName (metav1.LabelSelector opts)) = Ok b →
        WriteFile W (filepath.Join outDir "caps.json") b = None →
        ListAll W order ns opts outDir d
        = (d' ++ [(filepath.Join outDir "caps.json", b)], Ok tt)) ∧
     (∀ c e,
        getCapabilities W = (c, Some e) →
        ListAll W order ns opts outDir d
        = (d', Err (Errorf "reading cluster capabilities: " e))) ∧
     (∀ c e,
        getCapabilities W = (c, None) →
        json_MarshalIndent W (c, ns, releaseName (metav1.LabelSelector opts)) = Err e →
        ListAll W order ns opts outDir d
        = (d', Err (Errorf "marshaling capabilities to JSON: " e))) ∧
     (∀ c b e,
        getCapabilities W = (c, None) →
        json_MarshalIndent W (c, ns, releaseName (metav1.LabelSelector opts)) = Ok b →
        WriteFile W (filepath.Join outDir "caps.json") b = Some e →
        ListAll W order ns opts outDir d = (d', Err e))).
Proof.
  intros Hm. split.
  - intros d' e He. by apply ListAll_enumeration_err.
  - intros d' Hok. rewrite (ListAll_enumeration_ok W order ns opts outDir d d' Hm Hok).
    split; [done|]. unfold ListAll_capabilities, writeFile.
    split; [|split; [|split]].
    + intros c b Hc Hb Hw. by rewrite Hc, Hb, Hw.
    + intros c e Hc. by rewrite Hc.
    + intros c e Hc Hb. by rewrite Hc, Hb.
    + intros c b e Hc Hb Hw. by rewrite Hc, Hb, Hw.
Qed.

Lemma capabilities_after_enumeration_witness :
  ListAll Sample.cluster [("nodes", Sample.core); ("pods", Sample.core)]
    "default" Sample.opts "out" []
  = ([], Err (errorString "listing nodes: nodes is forbidden")) ∧
  ListAll Sample.cluster [("widgets", Sample.core); ("pods", Sample.core)]
    "default" Sample.opts "out" []
  = ([ (filepath.Join "out" "scanned-pod-default-web-1.yaml", "kind: Pod, name: web-1") ]
     ++ [ (filepath.Join "out" "caps.json", "release: myapp") ], Ok tt) ∧
  ListAll Sample.clusterNoVersion [("pods", Sample.core)]
    "default" Sample.opts "out" []
  = ([ (filepath.Join "out" "scanned-pod-default-web-1.yaml", "kind: Pod, name: web-1") ],
     Err (errorString "reading cluster capabilities: tiller version: exit status 1")).
Proof.
  split; [|split].
  - apply (proj1 (capabilities_after_enumeration Sample.cluster
                    [("nodes", Sample.core); ("pods", Sample.core)]
                    "default" Sample.opts "out" [] eq_refl)).
    vm_compute. reflexivity.
  - apply (proj1 (proj2 (proj2 (capabilities_after_enumeration Sample.cluster
                                  [("widgets", Sample.core); ("pods", Sample.core)]
                                  "default" Sample.opts "out" [] eq_refl)
                           [ (filepath.Join "out" "scanned-pod-default-web-1.yaml",
                              "kind: Pod, name: web-1") ]
                           ltac:(vm_compute; reflexivity)))
             {| chartutil.KubeVersion := Some "v1.11.0";
                chartutil.APIVersions := Some (chartutil.NewVersionSet ["apps/v1"]);
                chartutil.TillerVersion := Some "v2.9.1" |}
             "release: myapp").
    + reflexivity.
    + reflexivity.
    + reflexivity.
  - apply (proj1 (proj2 (proj2 (proj2 (capabilities_after_enumeration
                                         Sample.clusterNoVersion
                                         [("pods", Sample.core)]
                                         "default" Sample.opts "out" [] eq_refl)
                                  [ (filepath.Join "out" "scanned-pod-default-web-1.yaml",
                                     "kind: Pod, name: web-1") ]
                                  ltac:(vm_compute; reflexivity))))
             {| chartutil.KubeVersion := Some "v1.11.0";
                chartutil.APIVersions := Some (chartutil.NewVersionSet ["apps/v1"]);
                chartutil.TillerVersion := None |}
             (errorString "tiller version: exit status 1")).
    reflexivity.
Defined.

(** C4, as the claim has it, fails: with [helm] alive and both version
    commands failing, [getCapabilities] returns the error
    [tiller version: ...]. *)
Lemma version_probe_failure_is_fatal :
  getCapabilities Sample.clusterNoVersion
  = ({| chartutil.KubeVersion := Some "v1.11.0";
        chartutil.APIVersions := Some (chartutil.NewVersionSet ["apps/v1"]);
        chartutil.TillerVersion := None |},
     Some (errorString "tiller version: exit status 1")) ∧
  ListAll Sample.clusterNoVersion [] "default" Sample.opts "out" []
  = ([], Err (errorString
                "reading cluster capabilities: tiller version: exit status 1")) ∧
  ¬ helm_probe_is_best_effort.
Proof.
  assert (Hrun : getCapabilities Sample.clusterNoVersion
                 = ({| chartutil.KubeVersion := Some "v1.11.0";
                       chartutil.APIVersions := Some (chartutil.NewVersionSet ["apps/v1"]);
                       chartutil.TillerVersion := None |},
                    Some (errorString "tiller version: exit status 1")))
    by reflexivity.
  split; [exact Hrun|]. split; [reflexivity|].
  intros H.
  destruct (H Sample.clusterNoVersion "v1.11.0" Sample.groups eq_refl eq_refl)
    as (c & Hc & _); [done | by right |].
  rewrite Hrun in Hc. discriminate Hc.
Qed.

(** C4, amended: with the server answering, a [helm] that is absent or
    whose two liveness commands fail leaves the tiller version unset and
    is not an error, so the run goes on to write the capability document
    without it.  When a liveness command succeeds and both version
    commands fail, [getCapabilities] returns the error
    [tiller version: ...] of the second command, and [ListAll] fails with
    [reading cluster capabilities: ...] without writing the document. *)
Theorem helm_probe_outcomes (W : World) (sv : string) (groups : metav1.APIGroupList) :
  ServerVersion W = Ok sv →
  ServerGroups W = Ok groups →
  metav1.Groups groups ≠ [] →
  let c := {| chartutil.KubeVersion := Some sv;
              chartutil.APIVersions :=
                Some (chartutil.NewVersionSet (metav1.ExtractGroupVersions groups));
              chartutil.TillerVersion := None |} in
  (livenessFails W = true → getCapabilities W = (c, None)) ∧
  (livenessFails W = false →
   ∀ e1 e2 out1 out2,
     helm W versionArgs = (Some e1, out1) →
     helm W versionArgsTLS = (Some e2, out2) →
     getCapabilities W = (c, Some (Errorf "tiller version: " e2)) ∧
     ∀ ns opts outDir d,
       ListAll_capabilities W ns opts outDir d
       = (d, Err (Errorf "reading cluster capabilities: "
                    (Errorf "tiller version: " e2)))).
Proof.
  intros Hsv Hg Hne c.
  assert (Hcaps : getCapabilities W = probeTiller W c).
  { unfold getCapabilities. rewrite Hsv, Hg.
    by destruct (metav1.Groups groups). }
  unfold livenessFails. split.
  - intros Hl. rewrite Hcaps. unfold probeTiller.
    apply andb_prop in Hl as [Hl1 Hl2].
    destruct (helm W ["ls"]).1; [|done].
    by destruct (helm W ["ls"; "--tls"]).1.
  - intros Hl e1 e2 out1 out2 H1 H2.
    assert (Hprobe : getCapabilities W = (c, Some (Errorf "tiller version: " e2))).
    { rewrite Hcaps. unfold probeTiller. rewrite H1, H2.
      destruct (helm W ["ls"]).1; [|done].
      by destruct (helm W ["ls"; "--tls"]).1. }
    split; [done|]. intros ns opts outDir d.
    unfold ListAll_capabilities. by rewrite Hprobe.
Qed.

Lemma helm_probe_outcomes_witness :
  getCapabilities Sample.clusterNoHelm
  = ({| chartutil.KubeVersion := Some "v1.11.0";
        chartutil.APIVersions := Some (chartutil.NewVersionSet ["apps/v1"]);
        chartutil.TillerVersion := None |}, None) ∧
  ListAll_capabilities Sample.clusterNoVersion "default" Sample.opts "out" []
  = ([], Err (errorString
                "reading cluster capabilities: tiller version: exit status 1")).
Proof.
  split.
  - apply (proj1 (helm_probe_outcomes Sample.clusterNoHelm "v1.11.0" Sample.groups
                    eq_refl eq_refl ltac:(discriminate))).
    reflexivity.
  - apply (proj2 (proj2 (helm_probe_outcomes Sample.clusterNoVersion "v1.11.0"
                           Sample.groups eq_refl eq_refl ltac:(discriminate))
                    eq_refl
                    (errorString "exit status 1") (errorString "exit status 1")
                    EmptyString EmptyString eq_refl eq_refl)).
Defined.

(** * More properties of the scanner *)

(** ** [New] and the catalog *)

(** X1: [New] fails only when the client set cannot be created.  Whatever
    the discovery call returns as its error, the failure of some groups or
    a failure of the whole call, [New] returns a scanner, with the
    configuration and the flag it was given and the catalog of the lists
    that came back. *)
Theorem New_fails_only_without_client (W : World) (cfg : rest.Config) (cwo : bool) :
  (∀ err, NewForConfig W cfg = Some err →
          New W cfg cwo = Err (Errorf "creating kube client: " err)) ∧
  (NewForConfig W cfg = None →
   ∃ s, New W cfg cwo = Ok s ∧
        config s = cfg ∧
        clusterWideOnly s = cwo ∧
        ∀ name,
          resourceClients s !! name =
          fst <$> claimant W s (fst (ServerPreferredResources W)) name).
Proof.
  unfold New. split.
  - by intros err ->.
  - intros ->. rewrite getAllResources_catalog. eexists. split; [done|].
    cbn [config clusterWideOnly resourceClients].
    split; [done|]. split; [done|]. intros name.
    rewrite buildCatalog_lookup. unfold claimant, discoveries. done.
Qed.

Lemma New_fails_only_without_client_witness :
  ∃ s, New Outage.noDiscovery Sample.cfg false = Ok s ∧
       config s = Sample.cfg ∧
       clusterWideOnly s = false ∧
       ∀ name,
         resourceClients s !! name =
         fst <$> claimant Outage.noDiscovery s [] name.
Proof.
  exact (proj2 (New_fails_only_without_client Outage.noDiscovery Sample.cfg false)
           eq_refl).
Defined.

(** X2: a group/version whose name does not parse, or for which no client
    can be built, is passed over: the catalog is the one built without
    it, so the resource types of the groups before and after it are all
    there. *)
Theorem unusable_groupVersion_is_skipped (W : World) (s : Scanner)
    (vs1 vs2 : list metav1.APIResourceList) (v : metav1.APIResourceList) :
  (∃ e, schema.ParseGroupVersion (metav1.GroupVersion v) = Err e) ∨
  (∃ gv e, schema.ParseGroupVersion (metav1.GroupVersion v) = Ok gv ∧
           RESTClientFor W (groupVersionConfig (config s) gv) = Err e) →
  buildCatalog W s (vs1 ++ v :: vs2) = buildCatalog W s (vs1 ++ vs2).
Proof.
  intros H. unfold buildCatalog. rewrite !fold_left_app. cbn [fold_left].
  do 2 f_equal. unfold getAllResources_groupVersion.
  destruct H as [[e ->]|(gv & e & -> & ->)]; done.
Qed.

Lemma unusable_groupVersion_is_skipped_witness :
  buildCatalog Sample.widgetsWorld (Sample.scanner false) Outage.oddGroup
  = buildCatalog Sample.widgetsWorld (Sample.scanner false)
      [ {| metav1.GroupVersion := "v1";
           metav1.APIResources :=
             [ {| metav1.Name := "pods"; metav1.Namespaced := true |} ] |};
        {| metav1.GroupVersion := "apps/v1";
           metav1.APIResources :=
             [ {| metav1.Name := "deployments"; metav1.Namespaced := true |} ] |} ].
Proof.
  apply (unusable_groupVersion_is_skipped Sample.widgetsWorld (Sample.scanner false)
           [ {| metav1.GroupVersion := "v1";
                metav1.APIResources :=
                  [ {| metav1.Name := "pods"; metav1.Namespaced := true |} ] |} ]
           [ {| metav1.GroupVersion := "apps/v1";
                metav1.APIResources :=
                  [ {| metav1.Name := "deployments"; metav1.Namespaced := true |} ] |} ]
           {| metav1.GroupVersion := "a/b/v1";
              metav1.APIResources :=
                [ {| metav1.Name := "gadgets"; metav1.Namespaced := false |} ] |}).
  left. eexists. reflexivity.
Defined.

(** X3: every client of the catalog was built by [RESTClientFor] for a
    group/version that the discovery listed with a resource of that name,
    from the scanner's connection data with that group/version, a
    serializer, and the path [/api] for the core group (the one with the
    empty name) and [/apis] for every other group. *)
Theorem catalog_clients_are_built_per_groupVersion (W : World) (s : Scanner)
    (catalog : gmap string rest.RESTClient) (name : string) (c : rest.RESTClient) :
  getAllResources W s = Ok catalog →
  catalog !! name = Some c →
  ∃ v gv r,
    v ∈ fst (ServerPreferredResources W) ∧
    schema.ParseGroupVersion (metav1.GroupVersion v) = Ok gv ∧
    r ∈ metav1.APIResources v ∧
    metav1.Name r = name ∧
    RESTClientFor W
      {| rest.Host := rest.Host (config s);
         rest.APIPath :=
           if String.eqb (schema.Group gv) EmptyString then "/api" else "/apis";
         rest.GroupVersion := Some gv;
         rest.NegotiatedSerializer := true |} = Ok c.
Proof.
  intros ->%getAllResources_inv Hc. rewrite buildCatalog_lookup in Hc.
  destruct (claimant W s _ name) as [[c' r]|] eqn:Hcl; [|done].
  injection Hc as ->. unfold claimant in Hcl.
  apply find_some in Hcl as [Hin Hcl]. rewrite <- list_elem_of_In in Hin.
  apply discoveries_origin in Hin as (v & gv & Hv & Hgv & Hclient & Hr).
  unfold claims in Hcl. cbn [snd] in Hcl.
  apply andb_prop in Hcl as [Hn _]. apply String.eqb_eq in Hn.
  exists v, gv, r. repeat split; try done.
  unfold groupVersionConfig in Hclient.
  by destruct (schema.Group gv).
Qed.

Lemma catalog_clients_are_built_per_groupVersion_witness :
  ∃ v gv r,
    v ∈ Sample.widgets ∧
    schema.ParseGroupVersion (metav1.GroupVersion v) = Ok gv ∧
    r ∈ metav1.APIResources v ∧
    metav1.Name r = "widgets" ∧
    Sample.clientFor
      {| rest.Host := "https://cluster.local:6443";
         rest.APIPath :=
           if String.eqb (schema.Group gv) EmptyString then "/api" else "/apis";
         rest.GroupVersion := Some gv;
         rest.NegotiatedSerializer := true |}
    = Ok (Sample.client "b.example.com" "v1").
Proof.
  apply (catalog_clients_are_built_per_groupVersion Sample.widgetsWorld
           (Sample.scanner true)
           (buildCatalog Sample.widgetsWorld (Sample.scanner true) Sample.widgets)
           "widgets" (Sample.client "b.example.com" "v1") eq_refl).
  vm_compute. reflexivity.
Defined.

(** X4: the cluster-wide-only flag only takes names out of the catalog:
    on the same connection and the same discovery, every name the catalog
    has with the flag on it also has with the flag off (the client may be
    another one, when an earlier group serves the name namespaced). *)
Theorem cluster_wide_only_shrinks_catalog (W : World) (s1 s2 : Scanner)
    (vs : list metav1.APIResourceList) (name : string) :
  config s1 = config s2 →
  clusterWideOnly s2 = false →
  is_Some (buildCatalog W s1 vs !! name) →
  is_Some (buildCatalog W s2 vs !! name).
Proof.
  intros Hcfg Hoff [c Hc]. rewrite buildCatalog_lookup in Hc |- *.
  assert (Hd : discoveries W s2 vs = discoveries W s1 vs).
  { unfold discoveries. by rewrite Hcfg. }
  unfold claimant in *. rewrite Hd, Hoff.
  destruct (find (claims (clusterWideOnly s1) name) _) as [d|] eqn:H1; [|done].
  apply find_some in H1 as [Hin Hcl].
  destruct (find (claims false name) _) as [d'|] eqn:H2; [by eexists|].
  apply (find_none _ _ H2) in Hin. unfold claims, admissible in *.
  apply andb_prop in Hcl as [Hn Hadm]. rewrite Hn in Hin.
  apply andb_prop in Hadm as [Hadm _]. rewrite Hadm in Hin. done.
Qed.

Lemma cluster_wide_only_shrinks_catalog_witness :
  is_Some (buildCatalog Sample.widgetsWorld (Sample.scanner false) Sample.widgets
             !! "widgets").
Proof.
  apply (cluster_wide_only_shrinks_catalog Sample.widgetsWorld
           (Sample.scanner true) (Sample.scanner false) Sample.widgets "widgets"
           eq_refl eq_refl).
  exists (Sample.client "b.example.com" "v1"). vm_compute. reflexivity.
Defined.

(** X5: discovery lists compose: the catalog of two runs of lists one
    after the other is the catalog of the first, completed by the entries
    of the catalog of the second whose names the first does not have. *)
Theorem catalog_of_concatenation (W : World) (s : Scanner)
    (vs1 vs2 : list metav1.APIResourceList) :
  buildCatalog W s (vs1 ++ vs2) = buildCatalog W s vs1 ∪ buildCatalog W s vs2.
Proof.
  apply map_eq. intros name.
  rewrite lookup_union, !buildCatalog_lookup. unfold claimant.
  rewrite discoveries_app, find_app_first.
  destruct (find _ (discoveries W s vs1)) as [d|]; cbn.
  - by destruct (find _ (discoveries W s vs2)).
  - by destruct (find _ (discoveries W s vs2)).
Qed.

(** X6: the catalog is complete: a name is in the catalog
    [getAllResources] returns exactly when some group/version that parsed
    and got a client lists a resource of that name which has no path
    separator, is not in the seed skip set and, in cluster-wide-only
    mode, is not namespaced. *)
Theorem catalog_is_complete (W : World) (s : Scanner)
    (catalog : gmap string rest.RESTClient) (name : string) :
  getAllResources W s = Ok catalog →
  (is_Some (catalog !! name) ↔
   ∃ c r,
     (c, r) ∈ discoveries W s (fst (ServerPreferredResources W)) ∧
     metav1.Name r = name ∧
     strings.ContainsRune name "/" = false ∧
     (name ∉ skipSeed) ∧
     (clusterWideOnly s = true → metav1.Namespaced r = false)).
Proof.
  intros ->%getAllResources_inv. rewrite buildCatalog_lookup. unfold claimant.
  assert (Hclaims : ∀ c r,
            claims (clusterWideOnly s) name (c, r) = true ↔
            metav1.Name r = name ∧ strings.ContainsRune name "/" = false ∧
            (name ∉ skipSeed) ∧
            (clusterWideOnly s = true → metav1.Namespaced r = false)).
  { intros c r. unfold claims, admissible, stringset.Has. cbn [snd].
    rewrite !andb_true_iff, !negb_true_iff, String.eqb_eq, bool_decide_eq_false.
    split.
    - intros (<- & (Hs & Hk) & Hns). repeat split; try done.
      intros Hcwo. rewrite Hcwo in Hns. by destruct (metav1.Namespaced r).
    - intros (<- & Hs & Hk & Hns). repeat split; try done.
      destruct (clusterWideOnly s); [by rewrite Hns|done]. }
  split.
  - intros [c Hc].
    destruct (find _ _) as [[c' r]|] eqn:Hfind; [|done].
    apply find_some in Hfind as [Hin Hcl]. rewrite <- list_elem_of_In in Hin.
    exists c', r. split; [done|]. by apply (Hclaims c' r).
  - intros (c & r & Hin & Hrest).
    destruct (find _ _) as [d|] eqn:Hfind; [by eexists|].
    rewrite list_elem_of_In in Hin. apply (find_none _ _ Hfind) in Hin.
    assert (claims (clusterWideOnly s) name (c, r) = true) by by apply (Hclaims c r).
    congruence.
Qed.

Lemma catalog_is_complete_witness :
  is_Some (buildCatalog Sample.widgetsWorld (Sample.scanner true) Sample.widgets
             !! "widgets").
Proof.
  apply (proj2 (catalog_is_complete Sample.widgetsWorld (Sample.scanner true)
                  (buildCatalog Sample.widgetsWorld (Sample.scanner true) Sample.widgets)
                  "widgets" eq_refl)).
  exists (Sample.client "b.example.com" "v1"),
    {| metav1.Name := "widgets"; metav1.Namespaced := false |}.
  split; [|split; [reflexivity|split; [reflexivity|split; [by vm_compute|done]]]].
  do 2 apply list_elem_of_further. apply list_elem_of_here.
Defined.

(** ** What a run writes *)

(** The body of the item loop appends to the disk, and what it appends
    and returns does not depend on what is there already. *)
Lemma ListAll_item_effect (W : World) (outDir : string)
    (item : unstructured.Unstructured) :
  ∃ new r, (∀ d, ListAll_item W outDir item d = (d ++ new, r)) ∧
           ∀ f, f ∈ new → itemFile W outDir f.
Proof.
  rewrite ListAll_item_eq.
  destruct (yaml_Marshal W item) as [y|e] eqn:Hy.
  - destruct (suppressed item) eqn:Hs.
    + exists [], (Ok tt). split; [intros d; by rewrite app_nil_r|].
      by intros f Hf%elem_of_nil.
    + unfold writeFile. destruct (WriteFile W _ y) as [e|].
      * exists [], (Err e). split; [intros d; by rewrite app_nil_r|].
        by intros f Hf%elem_of_nil.
      * eexists _, (Ok tt). split; [done|].
        intros f ->%list_elem_of_singleton. by exists item.
  - eexists [], (Err _). split; [intros d; unfold fail; by rewrite app_nil_r|].
    by intros f Hf%elem_of_nil.
Qed.

Lemma forEach_effect {A : Type} (body : A → M unit) (P : Path * string → Prop)
    (l : list A) :
  (∀ x, x ∈ l → ∃ new r, (∀ d, body x d = (d ++ new, r)) ∧ ∀ f, f ∈ new → P f) →
  ∃ new r, (∀ d, forEach l body d = (d ++ new, r)) ∧ ∀ f, f ∈ new → P f.
Proof.
  induction l as [|x l IH]; intros Hbody.
  - exists [], (Ok tt). split; [intros d; unfold forEach, ret; by rewrite app_nil_r|].
    by intros f Hf%elem_of_nil.
  - destruct (Hbody x (list_elem_of_here _ _)) as (nx & rx & Hx & HPx).
    destruct (IH (λ y Hy, Hbody y (list_elem_of_further _ _ _ Hy)))
      as (nl & rl & Hl & HPl).
    destruct rx as [[]|e].
    + exists (nx ++ nl), rl. split.
      * intros d. cbn [forEach]. unfold andThen, bind.
        by rewrite Hx, Hl, app_assoc.
      * intros f [Hf|Hf]%elem_of_app; auto.
    + exists nx, (Err e). split; [|done].
      intros d. cbn [forEach]. unfold andThen, bind. by rewrite Hx.
Qed.

Lemma ListAll_resource_effect (W : World) (ns : string) (opts : metav1.ListOptions)
    (outDir : string) (entry : string * rest.RESTClient) :
  ∃ new r, (∀ d, ListAll_resource W ns opts outDir entry d = (d ++ new, r)) ∧
           ∀ f, f ∈ new → itemFile W outDir f.
Proof.
  destruct entry as [name client]. unfold ListAll_resource.
  destruct (Do W (listRequest ns opts name client)) as [items|e]; cbn [Into length Nat.eqb].
  - destruct (length items =? 0).
    + exists [], (Ok tt). split; [intros d; unfold ret; by rewrite app_nil_r|].
      by intros f Hf%elem_of_nil.
    + apply forEach_effect. intros item _. apply ListAll_item_effect.
  - destruct (listErrorIsFatal e client).
    + eexists [], (Err _). split; [intros d; unfold fail; by rewrite app_nil_r|].
      by intros f Hf%elem_of_nil.
    + exists [], (Ok tt). split; [intros d; unfold ret; by rewrite app_nil_r|].
      by intros f Hf%elem_of_nil.
Qed.

(** The capability step writes [caps.json] when it succeeds and nothing
    when it fails, whatever is on the disk. *)
Lemma ListAll_capabilities_effect (W : World) (ns : string) (opts : metav1.ListOptions)
    (outDir : string) :
  (∃ b, ∀ d, ListAll_capabilities W ns opts outDir d
             = (d ++ [(filepath.Join outDir "caps.json", b)], Ok tt)) ∨
  (∃ e, ∀ d, ListAll_capabilities W ns opts outDir d = (d, Err e)).
Proof.
  unfold ListAll_capabilities.
  destruct (getCapabilities W) as [c [e|]]; [right; by eexists|].
  destruct (json_MarshalIndent W _) as [b|e]; [|right; by eexists].
  unfold writeFile. destruct (WriteFile W _ b) as [e|]; [right|left]; by eexists.
Qed.

Lemma itemKey_not_caps (item : unstructured.Unstructured) : itemKey item ≠ "caps.json".
Proof.
  intros H.
  assert (Hs : strings.HasPrefix (itemKey item) "s" = true) by reflexivity.
  rewrite H in Hs. discriminate Hs.
Qed.

(** X8: the capability document tells a complete run from an aborted one:
    when [ListAll] returns without error, [caps.json] is the last file it
    wrote and the only one of that name; when it returns an error, it
    wrote no file of that name. *)
Theorem caps_json_marks_success (W : World)
    (order : list (string * rest.RESTClient)) (ns : string)
    (opts : metav1.ListOptions) (outDir : string) (d : Disk) :
  (snd (ListAll W order ns opts outDir d) = Ok tt →
   ∃ new b,
     fst (ListAll W order ns opts outDir d)
     = d ++ new ++ [(filepath.Join outDir "caps.json", b)] ∧
     ∀ f, f ∈ new → snd (fst f) ≠ "caps.json") ∧
  (∀ e, snd (ListAll W order ns opts outDir d) = Err e →
        ∃ new,
          fst (ListAll W order ns opts outDir d) = d ++ new ∧
          ∀ f, f ∈ new → snd (fst f) ≠ "caps.json").
Proof.
  unfold ListAll. destruct (MkdirAll W outDir) as [e|].
  { split; [done|]. intros e' _. exists [].
    split; [unfold fail; by rewrite app_nil_r|]. by intros f Hf%elem_of_nil. }
  destruct (forEach_effect (ListAll_resource W ns opts outDir) (itemFile W outDir) order
              (λ x _, ListAll_resource_effect W ns opts outDir x))
    as (n1 & r1 & H1 & HP1).
  assert (Hitems : ∀ f, f ∈ n1 → snd (fst f) ≠ "caps.json").
  { intros f Hf. destruct (HP1 f Hf) as (item & -> & _). apply itemKey_not_caps. }
  unfold andThen, bind. rewrite H1. destruct r1 as [[]|e].
  - destruct (ListAll_capabilities_effect W ns opts outDir) as [[b Hb]|[e He]].
    + rewrite Hb. split; [|done]. intros _. exists n1, b.
      split; [by rewrite <- app_assoc | done].
    + rewrite He. split; [done|]. intros e' _. by exists n1.
  - split; [done|]. intros e' _. by exists n1.
Qed.

Lemma caps_json_marks_success_witness :
  (∃ new b,
     fst (ListAll Sample.cluster [("pods", Sample.core); ("secrets", Sample.core)]
            "default" Sample.opts "out" [])
     = [] ++ new ++ [(filepath.Join "out" "caps.json", b)] ∧
     ∀ f, f ∈ new → snd (fst f) ≠ "caps.json") ∧
  (∃ new,
     fst (ListAll Sample.cluster [("pods", Sample.core); ("nodes", Sample.core)]
            "default" Sample.opts "out" [])
     = [] ++ new ∧
     ∀ f, f ∈ new → snd (fst f) ≠ "caps.json").
Proof.
  split.
  - apply (proj1 (caps_json_marks_success Sample.cluster
                    [("pods", Sample.core); ("secrets", Sample.core)]
                    "default" Sample.opts "out" [])).
    vm_compute. reflexivity.
  - apply (proj2 (caps_json_marks_success Sample.cluster
                    [("pods", Sample.core); ("nodes", Sample.core)]
                    "default" Sample.opts "out" [])
             (errorString "listing nodes: nodes is forbidden")).
    vm_compute. reflexivity.
Defined.

(** ** The order of the enumeration *)

(** A loop whose body only appends, the same whatever the disk, gets
    through in any order of its elements once it gets through in one, and
    appends the same files up to their order. *)
Lemma forEach_permutation {A : Type} (body : A → M unit) (l1 l2 : list A) :
  (∀ x, ∃ new r, ∀ d, body x d = (d ++ new, r)) →
  l1 ≡ₚ l2 →
  ∀ d d1, forEach l1 body d = (d1, Ok tt) →
          ∃ d2, forEach l2 body d = (d2, Ok tt) ∧ d1 ≡ₚ d2.
Proof.
  intros Hbody Hperm. induction Hperm as [|x l1 l2 _ IH|x y l|l1 l2 l3 _ IH1 _ IH2];
    intros d d1 Hrun.
  - by exists d1.
  - cbn [forEach] in *. unfold andThen, bind in *.
    destruct (body x d) as [dx [[]|e]]; [|done]. by apply IH.
  - destruct (Hbody x) as (nx & rx & Hx). destruct (Hbody y) as (ny & ry & Hy).
    destruct (forEach_effect body (λ _, True) l
                (λ z _, let '(ex_intro _ n (ex_intro _ r H)) := Hbody z in
                        ex_intro _ n (ex_intro _ r (conj H (λ _ _, I)))))
      as (nl & rl & Hl & _).
    cbn [forEach] in *. unfold andThen, bind in *.
    rewrite Hy, Hx, Hl in Hrun. rewrite Hx, Hy, Hl.
    destruct ry as [[]|e]; [|done]. destruct rx as [[]|e]; [|done].
    injection Hrun as <- ->.
    eexists. split; [done|].
    rewrite <- !app_assoc. apply Permutation_app_head.
    rewrite !app_assoc. apply Permutation_app_tail, Permutation_app_comm.
  - destruct (IH1 d d1 Hrun) as (d2 & Hrun2 & Hp12).
    destruct (IH2 d d2 Hrun2) as (d3 & Hrun3 & Hp23).
    exists d3. split; [done|]. by rewrite Hp12.
Qed.

(** X9: the order in which Go ranges over the catalog does not matter to
    a run that gets through: if [ListAll] returns without error for one
    order over the scanner's catalog, it does so for every other, and
    writes the same files, in another order, with [caps.json] last. *)
Theorem successful_run_is_order_independent (W : World) (s : Scanner)
    (order1 order2 : list (string * rest.RESTClient)) (ns : string)
    (opts : metav1.ListOptions) (outDir : string) (d d1 : Disk) :
  rangeOver s order1 →
  rangeOver s order2 →
  ListAll W order1 ns opts outDir d = (d1, Ok tt) →
  ∃ d2, ListAll W order2 ns opts outDir d = (d2, Ok tt) ∧ d1 ≡ₚ d2.
Proof.
  unfold rangeOver. intros H1 H2 Hrun.
  assert (Hperm : order1 ≡ₚ order2) by by rewrite H1, H2.
  unfold ListAll in *. destruct (MkdirAll W outDir); [done|].
  unfold andThen, bind in *.
  destruct (forEach order1 _ d) as [e1 [[]|e]] eqn:Henum; [|done].
  destruct (forEach_permutation (ListAll_resource W ns opts outDir) order1 order2
              (λ x, let '(ex_intro _ n (ex_intro _ r (conj H _))) :=
                      ListAll_resource_effect W ns opts outDir x in
                    ex_intro _ n (ex_intro _ r H))
              Hperm d e1 Henum) as (e2 & -> & Hp).
  destruct (ListAll_capabilities_effect W ns opts outDir) as [[b Hb]|[e He]].
  - rewrite Hb in Hrun |- *. injection Hrun as <-.
    eexists. split; [done|]. by apply Permutation_app_tail.
  - by rewrite He in Hrun.
Qed.

Lemma successful_run_is_order_independent_witness :
  ∃ d2,
    ListAll Sample.cluster [("secrets", Sample.core); ("pods", Sample.core)]
      "default" Sample.opts "out" [] = (d2, Ok tt) ∧
    [ (filepath.Join "out" "scanned-pod-default-web-1.yaml", "kind: Pod, name: web-1");
      (filepath.Join "out" "scanned-secret-default-db-password.yaml",
       "kind: Secret, name: db-password");
      (filepath.Join "out" "caps.json", "release: myapp") ] ≡ₚ d2.
Proof.
  apply (successful_run_is_order_independent Sample.cluster
           {| config := Sample.cfg;
              resourceClients :=
                list_to_map [("pods", Sample.core); ("secrets", Sample.core)];
              clusterWideOnly := false |}
           [("pods", Sample.core); ("secrets", Sample.core)]
           [("secrets", Sample.core); ("pods", Sample.core)]
           "default" Sample.opts "out" []).
  - unfold rangeOver. cbn [resourceClients]. symmetry. apply map_to_list_to_map.
    cbn. repeat constructor; set_solver.
  - unfold rangeOver. cbn [resourceClients].
    rewrite map_to_list_to_map by (cbn; repeat constructor; set_solver).
    apply perm_swap.
  - vm_compute. reflexivity.
Defined.

(** ** The reach of the filters *)

(** X10: the filters know five kinds.  An item of any other kind is never
    passed over, whatever owns it and whatever its labels and annotations
    say: once serialized it is written under its key. *)
Theorem other_kinds_are_never_filtered (W : World) (outDir : string)
    (item : unstructured.Unstructured) (y : string) (d : Disk) :
  unstructured.Kind item ∉ ["Pod"; "ReplicaSet"; "Job"; "Secret"; "Service"] →
  yaml_Marshal W item = Ok y →
  suppressed item = false ∧
  ListAll_item W outDir item d = writeFile W (filepath.Join outDir (itemKey item)) y d ∧
  (WriteFile W (filepath.Join outDir (itemKey item)) y = None →
   ListAll_item W outDir item d
   = (d ++ [(filepath.Join outDir (itemKey item), y)], Ok tt)).
Proof.
  intros Hkind Hy.
  assert (Hs : suppressed item = false).
  { unfold suppressed, ownedByController, tokenSecret, provisionedService.
    destruct (ownedKindsToSkip !! unstructured.Kind item) as [skip|] eqn:Hskip.
    { apply ownedKindsToSkip_lookup in Hskip. destruct Hkind.
      destruct Hskip as [[-> _]|[[-> _]|[-> _]]]; set_solver. }
    destruct (String.eqb_spec (unstructured.Kind item) "Secret") as [Heq|_];
      [destruct Hkind; rewrite Heq; set_solver|].
    destruct (String.eqb_spec (unstructured.Kind item) "Service") as [Heq|_];
      [destruct Hkind; rewrite Heq; set_solver|].
    done. }
  split; [done|]. rewrite ListAll_item_eq, Hy, Hs. split; [done|].
  intros Hw. unfold writeFile. by rewrite Hw.
Qed.

Lemma other_kinds_are_never_filtered_witness :
  suppressed (Sample.item "Deployment" "default" "web" ["ReplicaSet"]
                [("kubernetes.io/service-account.uid", "6f1b")]
                [("gluster.kubernetes.io/provisioned-for-pvc", "claim")]) = false ∧
  ListAll_item Sample.cluster "out"
    (Sample.item "Deployment" "default" "web" ["ReplicaSet"]
       [("kubernetes.io/service-account.uid", "6f1b")]
       [("gluster.kubernetes.io/provisioned-for-pvc", "claim")]) []
  = ([(filepath.Join "out" "scanned-deployment-default-web.yaml",
       "kind: Deployment, name: web")], Ok tt).
Proof.
  destruct (other_kinds_are_never_filtered Sample.cluster "out"
              (Sample.item "Deployment" "default" "web" ["ReplicaSet"]
                 [("kubernetes.io/service-account.uid", "6f1b")]
                 [("gluster.kubernetes.io/provisioned-for-pvc", "claim")])
              "kind: Deployment, name: web" [])
    as (Hs & _ & Hw).
  - cbn [Sample.item unstructured.Kind].
    intros H. repeat (apply elem_of_cons in H as [H|H]; [discriminate H|]).
    by apply elem_of_nil in H.
  - reflexivity.
  - split; [exact Hs|]. apply Hw. reflexivity.
Defined.

Lemma string_app_assoc (a b c : string) : (a +:+ b) +:+ c = a +:+ b +:+ c.
Proof.
  induction a as [|x a IH]; [done|].
  rewrite !append_cons. by rewrite IH.
Qed.

(** X11: the key does not tell items apart.  Two items whose kinds agree
    up to the case of their letters and whose namespace and name, joined
    by a dash, read the same get the same key, and so the same file: the
    namespace [a-b] with the name [c] and the namespace [a] with the name
    [b-c] are written to one path. *)
Theorem itemKey_collides (i1 i2 : unstructured.Unstructured) :
  strings.ToLower (unstructured.Kind i1) = strings.ToLower (unstructured.Kind i2) →
  unstructured.Namespace i1 +:+ "-" +:+ unstructured.Name i1
  = unstructured.Namespace i2 +:+ "-" +:+ unstructured.Name i2 →
  itemKey i1 = itemKey i2 ∧
  ∀ outDir, filepath.Join outDir (itemKey i1) = filepath.Join outDir (itemKey i2).
Proof.
  intros Hk Hn.
  assert (Hkey : itemKey i1 = itemKey i2).
  { unfold itemKey. rewrite Hk. do 3 f_equal.
    transitivity ((unstructured.Namespace i1 +:+ "-" +:+ unstructured.Name i1)
                  +:+ ".yaml"); [by rewrite !string_app_assoc|].
    rewrite Hn. by rewrite !string_app_assoc. }
  split; [done|]. intros outDir. by rewrite Hkey.
Qed.

Lemma itemKey_collides_witness :
  itemKey (Sample.item "Pod" "a-b" "c" [] [] [])
  = itemKey (Sample.item "POD" "a" "b-c" [] [] []).
Proof.
  apply (itemKey_collides (Sample.item "Pod" "a-b" "c" [] [] [])
           (Sample.item "POD" "a" "b-c" [] [] [])); reflexivity.
Defined.

(** X14: a resource type whose list is empty, or fails with an error the
    enumeration goes past, leaves no trace: a run is the same as the run
    over the other entries of the catalog alone. *)
Theorem quiet_entries_leave_no_trace (W : World)
    (order : list (string * rest.RESTClient)) (ns : string)
    (opts : metav1.ListOptions) (outDir : string) (d : Disk) :
  ListAll W order ns opts outDir d
  = ListAll W (List.filter (λ entry, negb (quiet W ns opts entry)) order)
      ns opts outDir d.
Proof.
  unfold ListAll. destruct (MkdirAll W outDir); [done|].
  assert (Henum : ∀ d', forEach order (ListAll_resource W ns opts outDir) d' =
                        forEach (List.filter (λ entry, negb (quiet W ns opts entry)) order)
                          (ListAll_resource W ns opts outDir) d').
  { induction order as [|[name client] order IH]; intros d'; [done|].
    cbn [List.filter]. unfold quiet at 1. cbn [fst snd].
    assert (Hstep : ∀ d'', ListAll_resource W ns opts outDir (name, client) d'' =
              match Do W (listRequest ns opts name client) with
              | Ok items =>
                  if length items =? 0 then (d'', Ok tt)
                  else forEach items (ListAll_item W outDir) d''
              | Err e =>
                  if tolerated e client then (d'', Ok tt)
                  else (d'', Err (Errorf ("listing " +:+ name +:+ ": ") e))
              end).
    { intros d''. unfold ListAll_resource.
      destruct (Do W _) as [items|e]; cbn [Into length Nat.eqb].
      - by destruct (length items =? 0).
      - rewrite listErrorIsFatal_tolerated. by destruct (tolerated e client). }
    destruct (Do W (listRequest ns opts name client)) as [items|e] eqn:HDo.
    - destruct (length items =? 0) eqn:Hlen; cbn [negb].
      + cbn [forEach]. unfold andThen, bind. rewrite Hstep. apply IH.
      + cbn [forEach]. unfold andThen, bind.
        destruct (ListAll_resource W ns opts outDir (name, client) d') as [dx [[]|e]];
          [apply IH | done].
    - destruct (tolerated e client) eqn:Htol; cbn [negb].
      + cbn [forEach]. unfold andThen, bind. rewrite Hstep. apply IH.
      + cbn [forEach]. unfold andThen, bind.
        destruct (ListAll_resource W ns opts outDir (name, client) d') as [dx [[]|e']];
          [apply IH | done]. }
  unfold andThen, bind. by rewrite Henum.
Qed.

(** ** The capability probe *)

(** X12: [getCapabilities] returns without error exactly when the server
    answers the version and the group queries and then either reports no
    group, or [helm] is not alive (both liveness commands fail), or one of
    the two version commands succeeds; the kube version is then the one
    the server gave. *)
Theorem getCapabilities_succeeds_iff (W : World) :
  snd (getCapabilities W) = None ↔
  ∃ sv groups,
    ServerVersion W = Ok sv ∧
    ServerGroups W = Ok groups ∧
    chartutil.KubeVersion (fst (getCapabilities W)) = Some sv ∧
    (metav1.Groups groups = [] ∨ livenessFails W = true ∨ versionFails W = false).
Proof.
  unfold getCapabilities.
  destruct (ServerVersion W) as [sv|e].
  2: { split; [done|]. by intros (? & ? & ? & _). }
  destruct (ServerGroups W) as [groups|e].
  2: { split; [done|]. by intros (? & ? & _ & ? & _). }
  destruct (metav1.Groups groups) as [|g gs] eqn:Hg; cbn [length Nat.eqb].
  { split; [|done]. intros _. exists sv, groups. rewrite Hg. auto. }
  set (c := {| chartutil.KubeVersion := Some sv;
               chartutil.APIVersions := _;
               chartutil.TillerVersion := None |}).
  assert (Hkube : chartutil.KubeVersion (fst (probeTiller W c)) = Some sv).
  { unfold probeTiller.
    by destruct (helm W ["ls"]) as [[e1|] o1], (helm W ["ls"; "--tls"]) as [[e2|] o2],
      (helm W versionArgs) as [[e3|] o3], (helm W versionArgsTLS) as [[e4|] o4]. }
  assert (Hprobe : snd (probeTiller W c) = None ↔
                   livenessFails W = true ∨ versionFails W = false).
  { unfold probeTiller, livenessFails, versionFails.
    destruct (helm W ["ls"]) as [[e1|] o1], (helm W ["ls"; "--tls"]) as [[e2|] o2],
      (helm W versionArgs) as [[e3|] o3], (helm W versionArgsTLS) as [[e4|] o4];
      cbn; naive_solver. }
  rewrite Hprobe. split.
  - intros H. exists sv, groups. rewrite Hg. auto.
  - intros (sv' & groups' & _ & [= <-] & _ & [H|H]); [by rewrite Hg in H | done].
Qed.

Lemma getCapabilities_succeeds_iff_witness :
  snd (getCapabilities Outage.noGroups) = None.
Proof.
  apply (proj2 (getCapabilities_succeeds_iff Outage.noGroups)).
  exists "v1.11.0", {| metav1.Groups := [] |}.
  split; [reflexivity|]. split; [reflexivity|]. split; [reflexivity|].
  left. reflexivity.
Defined.

(** X13: the tiller version is what the version command printed.  When
    the plain command fails and the one with [--tls] succeeds, both wrote
    to the one buffer: the version is the output of the failed command
    followed by that of the second.  When the server reports no group,
    [helm] is not consulted and the API versions stay unset. *)
Theorem tiller_version_is_the_buffer (W : World) (sv : string)
    (groups : metav1.APIGroupList) :
  ServerVersion W = Ok sv →
  ServerGroups W = Ok groups →
  (metav1.Groups groups = [] →
   getCapabilities W
   = ({| chartutil.KubeVersion := Some sv;
         chartutil.APIVersions := None;
         chartutil.TillerVersion := None |}, None)) ∧
  (metav1.Groups groups ≠ [] →
   livenessFails W = false →
   let c out :=
     {| chartutil.KubeVersion := Some sv;
        chartutil.APIVersions :=
          Some (chartutil.NewVersionSet (metav1.ExtractGroupVersions groups));
        chartutil.TillerVersion := Some out |} in
   (∀ out, helm W versionArgs = (None, out) → getCapabilities W = (c out, None)) ∧
   (∀ e1 out1 out2,
      helm W versionArgs = (Some e1, out1) →
      helm W versionArgsTLS = (None, out2) →
      getCapabilities W = (c (out1 +:+ out2), None))).
Proof.
  intros Hsv Hg. unfold getCapabilities. rewrite Hsv, Hg. split.
  - by intros ->.
  - intros Hne Hlive. cbv zeta.
    destruct (metav1.Groups groups) as [|g gs]; [done|]. cbn [length Nat.eqb].
    unfold probeTiller, livenessFails in *.
    assert (Hl : match (helm W ["ls"]).1 with
                 | Some _ => isNil (helm W ["ls"; "--tls"]).1
                 | None => true
                 end = true).
    { destruct (helm W ["ls"]).1; [|done].
      by destruct (helm W ["ls"; "--tls"]).1. }
    rewrite Hl. cbn [negb]. split.
    + by intros out ->.
    + by intros e1 out1 out2 -> ->.
Qed.

Lemma tiller_version_is_the_buffer_witness :
  getCapabilities Outage.noGroups
  = ({| chartutil.KubeVersion := Some "v1.11.0";
        chartutil.APIVersions := None;
        chartutil.TillerVersion := None |}, None) ∧
  getCapabilities Outage.tlsCluster
  = ({| chartutil.KubeVersion := Some "v1.11.0";
        chartutil.APIVersions := Some (chartutil.NewVersionSet ["apps/v1"]);
        chartutil.TillerVersion := Some ("Error: transport is closing" +:+ "v2.9.1") |},
     None).
Proof.
  split.
  - apply (proj1 (tiller_version_is_the_buffer Outage.noGroups "v1.11.0"
                    {| metav1.Groups := [] |} eq_refl eq_refl)).
    reflexivity.
  - apply (proj2 (proj2 (tiller_version_is_the_buffer Outage.tlsCluster "v1.11.0"
                           Sample.groups eq_refl eq_refl)
                    ltac:(discriminate) eq_refl)
             (errorString "exit status 1") "Error: transport is closing" "v2.9.1").
    + reflexivity.
    + reflexivity.
Defined.

(** ** The release name, once more *)

Lemma HasPrefix_split (s p : string) :
  strings.HasPrefix s p = true → s = p +:+ strings.drop (String.length p) s.
Proof.
  revert s. induction p as [|c p IH]; intros s H; [done|].
  destruct s as [|c' s]; [done|]. cbn [strings.HasPrefix] in H.
  apply andb_prop in H as [Hc Hp]. apply Ascii.eqb_eq in Hc as ->.
  rewrite append_cons. cbn [String.length strings.drop]. by rewrite <- IH.
Qed.

Lemma scanValue_inv (body v sep after : string) :
  scanValue body = Some (v, sep, after) →
  body = v +:+ sep +:+ after ∧
  strings.ContainsRune v "," = false ∧
  strings.ContainsRune v regexp.newline = false ∧
  ((sep = EmptyString ∧ after = EmptyString) ∨ sep = ",").
Proof.
  revert v. induction body as [|c body IH]; intros v H; cbn [scanValue] in H.
  - injection H as <- <- <-. repeat split; auto.
  - destruct (Ascii.eqb c ",") eqn:Hc.
    + injection H as <- <- <-. apply Ascii.eqb_eq in Hc as ->. repeat split; auto.
    + destruct (Ascii.eqb c regexp.newline) eqn:Hn; [done|].
      destruct (scanValue body) as [[[v' sep'] after']|]; [|done].
      injection H as <- <- <-.
      destruct (IH v' eq_refl) as (-> & Hv1 & Hv2 & Hsep).
      rewrite append_cons. cbn [strings.ContainsRune]. by rewrite Hc, Hn.
Qed.

Lemma FindStringSubmatch_releaseRe_inv (s : string) (m : list string) :
  regexp.FindStringSubmatch releaseRe s = Some m →
  ∃ pre v sep after,
    s = pre +:+ "release=" +:+ v +:+ sep +:+ after ∧
    scanValue (v +:+ sep +:+ after) = Some (v, sep, after) ∧
    ∃ whole, m = [whole; v; sep].
Proof.
  assert (Hat : ∀ s', regexp.matchAt releaseRe s' = Some m →
            ∃ v sep after,
              s' = "release=" +:+ v +:+ sep +:+ after ∧
              scanValue (v +:+ sep +:+ after) = Some (v, sep, after) ∧
              ∃ whole, m = [whole; v; sep]).
  { intros s'. rewrite matchAt_releaseRe.
    destruct (strings.HasPrefix s' "release=") eqn:Hp; [|done].
    apply HasPrefix_split in Hp. change (String.length "release=") with 8 in Hp.
    destruct (scanValue (strings.drop 8 s')) as [[[v sep] after]|] eqn:Hs; [|done].
    intros [= <-]. exists v, sep, after.
    destruct (scanValue_inv _ _ _ _ Hs) as (Hbody & _).
    rewrite Hbody in Hp, Hs. split; [done|]. split; [done|]. by eexists. }
  induction s as [|c s IH]; cbn [regexp.FindStringSubmatch].
  - destruct (regexp.matchAt releaseRe EmptyString) eqn:Hm; [|done].
    intros [= <-]. destruct (Hat _ Hm) as (v & sep & after & Hs & _). done.
  - destruct (regexp.matchAt releaseRe (String c s)) eqn:Hm.
    + intros [= <-]. destruct (Hat _ Hm) as (v & sep & after & Hs & Hrest).
      exists EmptyString, v, sep, after. by rewrite append_nil.
    + intros H. destruct (IH H) as (pre & v & sep & after & -> & Hrest).
      exists (String c pre), v, sep, after. by rewrite append_cons.
Qed.

(** X15: a release name never holds a comma or a line break; and one that
    is not empty is text of the selector: it stands right after a
    [release=] and is followed by a comma or by the end of the selector. *)
Theorem releaseName_is_a_value_of_the_selector (s : string) :
  strings.ContainsRune (releaseName s) "," = false ∧
  strings.ContainsRune (releaseName s) regexp.newline = false ∧
  (releaseName s ≠ EmptyString →
   ∃ pre tail,
     s = pre +:+ "release=" +:+ releaseName s +:+ tail ∧
     (tail = EmptyString ∨ strings.HasPrefix tail "," = true)).
Proof.
  unfold releaseName.
  destruct (regexp.FindStringSubmatch releaseRe s) as [m|] eqn:Hm; [|done].
  destruct (FindStringSubmatch_releaseRe_inv s m Hm)
    as (pre & v & sep & after & -> & Hs & whole & ->).
  destruct (scanValue_inv _ _ _ _ Hs) as (_ & Hc & Hn & Hsep).
  split; [done|]. split; [done|]. intros _.
  exists pre, (sep +:+ after). split; [done|].
  destruct Hsep as [[-> ->] | ->]; [by left | by right].
Qed.

Lemma releaseName_is_a_value_of_the_selector_witness :
  ∃ pre tail,
    "app=x,release=myapp,tier=web"
    = pre +:+ "release=" +:+ releaseName "app=x,release=myapp,tier=web" +:+ tail ∧
    (tail = EmptyString ∨ strings.HasPrefix tail "," = true).
Proof.
  apply (proj2 (proj2 (releaseName_is_a_value_of_the_selector
                         "app=x,release=myapp,tier=web"))).
  vm_compute. discriminate.
Defined.

(** ** The errors of a run *)

(** A loop that returns an error went through a first part of its list
    and failed in the body of the next element. *)
Lemma forEach_first_error {A : Type} (body : A → M unit) (l : list A)
    (d d' : Disk) (e : error) :
  forEach l body d = (d', Err e) →
  ∃ l1 x l2 d1, l = l1 ++ x :: l2 ∧
                forEach l1 body d = (d1, Ok tt) ∧
                body x d1 = (d', Err e).
Proof.
  revert d. induction l as [|x l IH]; intros d Hrun; [done|].
  cbn [forEach] in Hrun. unfold andThen, bind in Hrun.
  destruct (body x d) as [dx [[]|ex]] eqn:Hx.
  - destruct (IH dx Hrun) as (l1 & y & l2 & d1 & -> & Hl1 & Hy).
    exists (x :: l1), y, l2, d1. split; [done|]. split; [|done].
    cbn [forEach]. unfold andThen, bind. by rewrite Hx.
  - injection Hrun as <- <-. by exists [], x, l, d.
Qed.

(** X16: [ListAll] returns an error exactly when one step of the run
    fails after the steps before it went through, and the error is that
    of the step: the output directory cannot be created; or, after the
    entries before it went through, the list call of an entry fails with
    an error that is not let past, or, after the items before it went
    through, an item of its list cannot be serialized or, serialized and
    not passed over, cannot be written (the write error is returned as it
    is); or, after the whole enumeration went through, the capability
    probe fails, or the document cannot be encoded, or [caps.json] cannot
    be written. *)
Theorem ListAll_error_origins (W : World)
    (order : list (string * rest.RESTClient)) (ns : string)
    (opts : metav1.ListOptions) (outDir : string) (d : Disk) (e : error) :
  snd (ListAll W order ns opts outDir d) = Err e ↔
  ListAll_error_origin W order ns opts outDir d e.
Proof.
  unfold ListAll_error_origin. split.
  - unfold ListAll. destruct (MkdirAll W outDir) as [err|].
    { intros [= <-]. left. by exists err. }
    unfold andThen, bind.
    destruct (forEach order _ d) as [d1 [[]|e1]] eqn:Henum.
    + intros Hcaps. right. right. split; [done|]. exists d1. split; [done|].
      unfold ListAll_capabilities in Hcaps.
      destruct (getCapabilities W) as [c [err|]].
      { injection Hcaps as <-. left. by exists c, err. }
      right. exists c. split; [done|].
      destruct (json_MarshalIndent W _) as [b|err] eqn:Hb.
      * right. exists b. split; [done|]. unfold writeFile in Hcaps.
        destruct (WriteFile W _ b) as [err|]; [|done]. by injection Hcaps as <-.
      * injection Hcaps as <-. left. by exists err.
    + intros [= <-]. right. left. split; [done|].
      destruct (forEach_first_error _ _ _ _ _ Henum)
        as (pre & [name client] & post & d0 & -> & Hpre & Hentry).
      exists pre, name, client, post, d0. split; [done|]. split; [done|].
      unfold ListAll_resource in Hentry.
      destruct (Do W (listRequest ns opts name client)) as [items|err] eqn:HDo;
        cbn [Into length Nat.eqb] in Hentry.
      * right. destruct (length items =? 0); [done|].
        destruct (forEach_first_error _ _ _ _ _ Hentry)
          as (items1 & item & items2 & d2 & -> & Hitems1 & Hitem).
        exists items1, item, items2, d2. split; [done|]. split; [done|].
        rewrite ListAll_item_eq in Hitem.
        destruct (yaml_Marshal W item) as [y|err] eqn:Hy.
        -- right. exists y. split; [done|].
           destruct (suppressed item) eqn:Hs; [done|]. split; [done|].
           unfold writeFile in Hitem.
           destruct (WriteFile W _ y) as [err|]; [|done]. by injection Hitem as <- <-.
        -- injection Hitem as <- <-. left. by exists err.
      * left. rewrite listErrorIsFatal_tolerated in Hentry.
        destruct (tolerated err client) eqn:Htol; [done|].
        injection Hentry as <- <-. by exists err.
  - intros [(err & Hm & ->)|[(Hm & Horigin)|(Hm & Horigin)]].
    + unfold ListAll. by rewrite Hm.
    + destruct Horigin as (pre & name & client & post & d1 & -> & Hpre & Hentry).
      assert (Hstep : ∃ d', ListAll_resource W ns opts outDir (name, client) d1
                            = (d', Err e)).
      { unfold ListAll_resource.
        destruct Hentry as [(err & -> & Htol & ->)
                           |(items1 & item & items2 & d2 & -> & Hitems1 & Hitem)];
          cbn [Into length Nat.eqb].
        - rewrite listErrorIsFatal_tolerated, Htol. by eexists.
        - replace (length (items1 ++ item :: items2) =? 0) with false
            by (symmetry; apply Nat.eqb_neq; rewrite length_app; simpl; lia).
          assert (Hbody : ∃ d', ListAll_item W outDir item d2 = (d', Err e)).
          { rewrite ListAll_item_eq.
            destruct Hitem as [(err & -> & ->)|(y & -> & -> & Hw)]; [by eexists|].
            unfold writeFile. rewrite Hw. by eexists. }
          destruct Hbody as [d' Hbody]. exists d'.
          by apply (forEach_stops _ _ _ _ _ d2 d'). }
      destruct Hstep as [d' Hstep].
      rewrite (ListAll_enumeration_err W _ ns opts outDir d d' e Hm); [done|].
      by apply (forEach_stops _ _ _ _ _ d1 d').
    + destruct Horigin as (d1 & Henum & Hcaps).
      rewrite (ListAll_enumeration_ok W order ns opts outDir d d1 Hm Henum).
      unfold ListAll_capabilities, writeFile.
      destruct Hcaps as [(c & err & -> & ->)|(c & -> & [(err & -> & ->)|(b & -> & ->)])];
        done.
Qed.

Lemma ListAll_error_origins_witness :
  ListAll_error_origin Sample.cluster
    [("pods", Sample.core); ("nodes", Sample.core)]
    "default" Sample.opts "out" []
    (errorString "listing nodes: nodes is forbidden") ∧
  snd (ListAll Sample.cluster [("brokenpods", Sample.core)]
         "default" Sample.opts "out" [])
  = Err (errorString
           "creating YAML for scanned-pod-default-broken.yaml: json: unsupported value").
Proof.
  split.
  - apply (proj1 (ListAll_error_origins Sample.cluster
                    [("pods", Sample.core); ("nodes", Sample.core)]
                    "default" Sample.opts "out" []
                    (errorString "listing nodes: nodes is forbidden"))).
    vm_compute. reflexivity.
  - apply (proj2 (ListAll_error_origins Sample.cluster
                    [("brokenpods", Sample.core)]
                    "default" Sample.opts "out" []
                    (errorString
                       "creating YAML for scanned-pod-default-broken.yaml: json: unsupported value"))).
    right. left. split; [reflexivity|].
    exists [], "brokenpods", Sample.core, [], []. split; [reflexivity|].
    split; [reflexivity|]. right.
    exists [Sample.item "Pod" "default" "web-3" [] [] []],
      (Sample.item "Pod" "default" "broken" ["ReplicaSet"] [] []),
      [Sample.item "Pod" "default" "web-4" [] [] []],
      [(filepath.Join "out" "scanned-pod-default-web-3.yaml", "kind: Pod, name: web-3")].
    split; [reflexivity|]. split; [vm_compute; reflexivity|].
    left. exists (errorString "json: unsupported value"). split; reflexivity.
Defined.
